(** * The browser session manager of mcp_browser_tool

    A shallow embedding of [src/browser_tool.py] (class [BrowserTool]) and
    the properties of its session life cycle.

    The Python coroutines are embedded as terms of a small free monad
    [prog]: reading and writing the attributes of [self], logging, raising,
    and calling into the outside world (Playwright, llama_cpp).  Every
    [await] of an outside call is a [Call] node, whose continuation receives
    either the value or the exception; [try]/[except]/[finally] are
    combinators over [prog].  Two semantics are given to the same terms:

    - [run]: one operation executed to completion against an arbitrary
      environment (the sequential reading, one tool call at a time);
    - [advance], [pool_step] and [session_step]: asyncio's cooperative
      interleaving, where a coroutine runs atomically up to its next
      outside call and any number of calls may be pending at once.

    Conventions: [string] stands for Python's [str] (a character of [ascii]
    stands for a code point), [Z] for [int], [option] for an attribute that
    may hold [None].  Only exceptions derived from [Exception] are modelled
    (what [except Exception] catches); task cancellation is not. *)

From Stdlib Require Import List String Ascii ZArith Bool Lia DecimalString.
Import ListNotations.
Local Open Scope string_scope.
Local Open Scope Z_scope.
Set Warnings "-register-all".

(** ** Python values *)

Inductive exn_class :=
| Exception | AttributeError | TypeError | IndexError | JSONDecodeError
| UnicodeEncodeError.

(** An exception object: its class and [str(e)]. *)
Record exn := mk_exn { exn_cls : exn_class; str : string }.

Inductive result (A : Type) :=
| Returned (a : A)
| Raised (e : exn).
Arguments Returned {A} a.
Arguments Raised {A} e.

Definition is_raised {A} (r : result A) : bool :=
  match r with Raised _ => true | Returned _ => false end.

(** A binary floating-point number as [json.loads] may produce it. *)
Inductive pyfloat :=
| FZero (neg : bool)
| FInf (neg : bool)
| FNaN
| FFinite (neg : bool) (m : positive) (e : Z).

(** What [json.loads] returns.  A [JDict] lists the items of the dict in
    insertion order, keys distinct; lookup takes the first binding. *)
Inductive json :=
| JNull
| JBool (b : bool)
| JInt (z : Z)
| JFloat (f : pyfloat)
| JStr (s : string)
| JList (l : list json)
| JDict (d : list (string * json)).

(** [bool(v)] *)
Definition truthy (v : json) : bool :=
  match v with
  | JNull => false
  | JBool b => b
  | JInt z => negb (z =? 0)
  | JFloat (FZero _) => false
  | JFloat _ => true
  | JStr s => negb (String.eqb s "")
  | JList l => match l with [] => false | _ => true end
  | JDict d => match d with [] => false | _ => true end
  end.

(** [type(v).__name__] *)
Definition type_name (v : json) : string :=
  match v with
  | JNull => "NoneType"
  | JBool _ => "bool"
  | JInt _ => "int"
  | JFloat _ => "float"
  | JStr _ => "str"
  | JList _ => "list"
  | JDict _ => "dict"
  end.

Fixpoint lookup (key : string) (d : list (string * json)) : option json :=
  match d with
  | [] => None
  | (k, v) :: d' => if String.eqb k key then Some v else lookup key d'
  end.

(** [v.get(key, default)]: only a dict has [get]. *)
Definition py_get (v : json) (key : string) (default : json) : result json :=
  match v with
  | JDict d => Returned (match lookup key d with Some x => x | None => default end)
  | _ => Raised (mk_exn AttributeError
                   ("'" ++ type_name v ++ "' object has no attribute 'get'"))
  end.

(** The number of items [seq[:stop]] keeps of a sequence of length [len]:
    a negative [stop] counts from the end. *)
Definition slice_stop (len : nat) (stop : Z) : nat :=
  if stop <? 0 then Z.to_nat (Z.of_nat len + stop)
  else Nat.min (Z.to_nat stop) len.

Definition list_prefix {A} (l : list A) (stop : Z) : list A :=
  firstn (slice_stop (List.length l) stop) l.

Definition str_prefix (s : string) (stop : Z) : string :=
  substring 0 (slice_stop (String.length s) stop) s.

(** [v[:stop]]: lists and strings slice; a dict takes the slice for a key
    (unhashable before CPython 3.12); the other values are not
    subscriptable. *)
Definition py_slice_to (v : json) (stop : Z) : result json :=
  match v with
  | JList l => Returned (JList (list_prefix l stop))
  | JStr s => Returned (JStr (str_prefix s stop))
  | JDict _ => Raised (mk_exn TypeError "unhashable type: 'slice'")
  | _ => Raised (mk_exn TypeError
                   ("'" ++ type_name v ++ "' object is not subscriptable"))
  end.

(** The items a [for] loop draws from a sliced value: the elements of a
    list, the one-character strings of a string. *)
Definition py_items (v : json) : list json :=
  match v with
  | JList l => l
  | JStr s => map (fun c => JStr (String c "")) (list_ascii_of_string s)
  | _ => []
  end.

Definition str_of_nat (n : nat) : string := NilZero.string_of_uint (Nat.to_uint n).
Definition str_of_Z (z : Z) : string := NilZero.string_of_int (Z.to_int z).

(** ** Strings *)

Definition double_quote : ascii := "034"%char.
Definition single_quote : ascii := "039"%char.

Fixpoint lstrip (chars : ascii -> bool) (s : string) : string :=
  match s with
  | EmptyString => EmptyString
  | String c s' => if chars c then lstrip chars s' else s
  end.

Definition rev_string (s : string) : string :=
  string_of_list_ascii (rev (list_ascii_of_string s)).

Definition rstrip (chars : ascii -> bool) (s : string) : string :=
  rev_string (lstrip chars (rev_string s)).

(** [s.strip(chars)] *)
Definition strip (chars : ascii -> bool) (s : string) : string :=
  rstrip chars (lstrip chars s).

(** The characters [model_path.strip] removes in [__init__]: the double
    and the single quote. *)
Definition is_quote (c : ascii) : bool :=
  Ascii.eqb c double_quote || Ascii.eqb c single_quote.

(** [c.isspace()] for the code points below 256. *)
Definition isspace (c : ascii) : bool :=
  let n := nat_of_ascii c in
  ((9 <=? n) && (n <=? 13) || (28 <=? n) && (n <=? 32)
   || (n =? 133) || (n =? 160))%nat.

Fixpoint split_words (cs : list ascii) (word : list ascii) : list string :=
  match cs with
  | [] => match word with
          | [] => []
          | _ => [string_of_list_ascii (rev word)]
          end
  | c :: cs' =>
      if isspace c then
        match word with
        | [] => split_words cs' []
        | _ => string_of_list_ascii (rev word) :: split_words cs' []
        end
      else split_words cs' (c :: word)
  end.

(** [s.split()] *)
Definition split (s : string) : list string :=
  split_words (list_ascii_of_string s) [].

(** [sep.join(l)] *)
Definition join (sep : string) (l : list string) : string := String.concat sep l.

(** Truth of an [Optional[str]] argument: [None] and [''] are false. *)
Definition given (o : option string) : option string :=
  match o with
  | Some s => if String.eqb s "" then None else Some s
  | None => None
  end.

(** ** The outside world *)

(** Handles of Playwright and llama_cpp objects. *)
Inductive Playwright := PlaywrightHandle (id : nat).
Inductive Browser := BrowserHandle (id : nat).
Inductive BrowserContext := ContextHandle (id : nat).
Inductive Page := PageHandle (id : nat).
Inductive Llama := LlamaHandle (id : nat).

(** The response of a page load; Playwright's [Response.status] is an
    [int], so the [hasattr]/[isinstance] guard of [navigate] is true. *)
Record Response := { status : Z }.

(** The completion a [Llama] object returns: a dict with a list under
    [choices], each item a dict with a string under [text]. *)
Record Choice := { text : string }.
Record Completion := { choices : list Choice }.

Inductive wait_until := networkidle | domcontentloaded.

Record ContextOptions := {
  viewport : Z * Z;
  user_agent : string;
  extra_http_headers : list (string * string);
  java_script_enabled : bool;
  bypass_csp : bool;
  ignore_https_errors : bool }.

(** The calls the class makes to the outside, indexed by what they return.
    Each may also raise. *)
Inductive call : Type -> Type :=
| async_playwright_start : call Playwright
| chromium_launch (pw : Playwright) (headless : bool) (args : list string) : call Browser
| new_context (b : Browser) (opts : ContextOptions) : call BrowserContext
| new_page (c : BrowserContext) : call Page
| add_init_script (p : Page) (script : string) : call unit
| page_goto (p : Page) (url : string) (w : wait_until) (timeout : option Z)
  : call (option Response)
| page_content (p : Page) : call string
| wait_for_selector (p : Page) (selector : string) (timeout : Z) : call unit
| page_close (p : Page) : call unit
| browser_close (b : Browser) : call unit
| playwright_stop (pw : Playwright) : call unit
| Llama_new (model_path : string) (n_ctx n_threads : Z) : call Llama
| llm_complete (l : Llama) (prompt : string) (max_tokens : Z) : call Completion.

Definition is_launch {T} (c : call T) : bool :=
  match c with chromium_launch _ _ _ => true | _ => false end.

(** The process environment and the pure library functions the class uses:
    [os.getenv], [os.path.exists], [urllib.parse.quote_plus] (which raises
    [UnicodeEncodeError] on a text that UTF-8 cannot encode),
    BeautifulSoup ([find('pre')] followed by [get_text()]; script and style
    removal followed by [get_text(separator=' ', strip=True)]),
    [json.loads] (which raises on malformed text), and the [repr] an
    f-string prints of a value that is not a string. *)
Record Host := {
  getenv : string -> option string;
  path_exists : string -> bool;
  quote_plus : string -> result string;
  soup_find_pre : string -> option string;
  soup_visible_text : string -> string;
  json_loads : string -> result json;
  py_repr : json -> string }.

Inductive level := INFO | WARNING | ERROR.

(** ** The object *)

(** The attributes of a [BrowserTool].  [llm] is [None] while the attribute
    has not been assigned at all, [Some None] when it holds Python's
    [None]. *)
Record BrowserTool := {
  playwright : option Playwright;
  browser : option Browser;
  page : option Page;
  _initializing : bool;
  llm : option (option Llama) }.

Definition with_playwright (v : option Playwright) (self : BrowserTool) :=
  {| playwright := v; browser := browser self; page := page self;
     _initializing := _initializing self; llm := llm self |}.
Definition with_browser (v : option Browser) (self : BrowserTool) :=
  {| playwright := playwright self; browser := v; page := page self;
     _initializing := _initializing self; llm := llm self |}.
Definition with_page (v : option Page) (self : BrowserTool) :=
  {| playwright := playwright self; browser := browser self; page := v;
     _initializing := _initializing self; llm := llm self |}.
Definition with_initializing (v : bool) (self : BrowserTool) :=
  {| playwright := playwright self; browser := browser self; page := page self;
     _initializing := v; llm := llm self |}.
Definition with_llm (v : option Llama) (self : BrowserTool) :=
  {| playwright := playwright self; browser := browser self; page := page self;
     _initializing := _initializing self; llm := Some v |}.

(** An object before [__init__] has run.  The first four statements of
    [__init__] assign the session attributes, so only [llm] is modelled as
    an attribute that may be left unassigned. *)
Definition blank : BrowserTool :=
  {| playwright := None; browser := None; page := None;
     _initializing := false; llm := None |}.

(** ** Programs *)

Inductive prog (A : Type) : Type :=
| Ret (a : A)
| Raise (e : exn)
| Call {T : Type} (c : call T) (k : result T -> prog A)
| Get (k : BrowserTool -> prog A)
| Put (self : BrowserTool) (k : prog A)
| Log (l : level) (msg : string) (k : prog A).
Arguments Ret {A} a.
Arguments Raise {A} e.
Arguments Call {A T} c k.
Arguments Get {A} k.
Arguments Put {A} self k.
Arguments Log {A} l msg k.

Fixpoint bind {A B} (p : prog A) (f : A -> prog B) : prog B :=
  match p with
  | Ret a => f a
  | Raise e => Raise e
  | Call c k => Call c (fun r => bind (k r) f)
  | Get k => Get (fun self => bind (k self) f)
  | Put self k => Put self (bind k f)
  | Log l m k => Log l m (bind k f)
  end.

(** [try: p  except Exception as e: handler e] *)
Fixpoint try_except {A} (p : prog A) (handler : exn -> prog A) : prog A :=
  match p with
  | Ret a => Ret a
  | Raise e => handler e
  | Call c k => Call c (fun r => try_except (k r) handler)
  | Get k => Get (fun self => try_except (k self) handler)
  | Put self k => Put self (try_except k handler)
  | Log l m k => Log l m (try_except k handler)
  end.

(** [try: p  finally: cleanup] *)
Fixpoint finally {A} (p : prog A) (cleanup : prog unit) : prog A :=
  match p with
  | Ret a => bind cleanup (fun _ => Ret a)
  | Raise e => bind cleanup (fun _ => Raise e)
  | Call c k => Call c (fun r => finally (k r) cleanup)
  | Get k => Get (fun self => finally (k self) cleanup)
  | Put self k => Put self (finally k cleanup)
  | Log l m k => Log l m (finally k cleanup)
  end.

Declare Scope prog_scope.
Delimit Scope prog_scope with prog.
Notation "x <- p ;; q" := (bind p (fun x => q))
  (at level 100, p at next level, right associativity) : prog_scope.
Notation "p ;; q" := (bind p (fun _ => q))
  (at level 100, right associativity) : prog_scope.
Local Open Scope prog_scope.

(** [await c]: the value, or the exception raised in the coroutine. *)
Definition await {T} (c : call T) : prog T :=
  Call c (fun r => match r with Returned v => Ret v | Raised e => Raise e end).

Definition get_self : prog BrowserTool := Get (fun self => Ret self).
Definition modify (f : BrowserTool -> BrowserTool) : prog unit :=
  Get (fun self => Put (f self) (Ret tt)).
Definition log (l : level) (msg : string) : prog unit := Log l msg (Ret tt).
Definition lift {A} (r : result A) : prog A :=
  match r with Returned a => Ret a | Raised e => Raise e end.

(** [o.name] where [o] may be [None]. *)
Definition attr_of {H} (o : option H) (name : string) : prog H :=
  match o with
  | Some h => Ret h
  | None => Raise (mk_exn AttributeError
                     ("'NoneType' object has no attribute '" ++ name ++ "'"))
  end.

(** ** The class [BrowserTool] *)

Definition launch_args : list string :=
  ["--disable-blink-features=AutomationControlled";
   "--disable-dev-shm-usage";
   "--no-sandbox"].

Definition context_options : ContextOptions :=
  {| viewport := (1920, 1080);
     user_agent := "Mozilla/5.0 (X11; Linux x86_64) AppleWebKit/537.36 (KHTML, like Gecko) Chrome/120.0.0.0 Safari/537.36";
     extra_http_headers :=
       [("Accept", "text/html,application/xhtml+xml,application/xml;q=0.9,image/webp,*/*;q=0.8");
        ("Accept-Language", "en-US,en;q=0.9");
        ("Accept-Encoding", "gzip, deflate, br");
        ("DNT", "1");
        ("Connection", "keep-alive");
        ("Upgrade-Insecure-Requests", "1")];
     java_script_enabled := true;
     bypass_csp := true;
     ignore_https_errors := true |}.

Definition init_script : string :=
  "
                    Object.defineProperty(navigator, 'webdriver', {
                        get: () => undefined
                    });
                ".

(** The text of the exceptions the class raises itself. *)
Definition no_page_loaded : exn :=
  mk_exn Exception "No page loaded. Navigate to a URL first.".
Definition llm_not_configured : exn :=
  mk_exn Exception
    "LLM not configured. Set LLM environment variable with path to model file.".
(** [self.llm] on an object whose [llm] was never assigned. *)
Definition no_attribute_llm : exn :=
  mk_exn AttributeError "'BrowserTool' object has no attribute 'llm'".

Section Class.

Variable host : Host.

(** [BrowserTool.__init__], run on a [blank] object. *)
Definition __init__ : prog unit :=
  modify (with_playwright None);;
  modify (with_browser None);;
  modify (with_page None);;
  modify (with_initializing false);;
  match given (getenv host "LLM") with
  | Some model_path =>
      let model_path := strip is_quote model_path in
      if path_exists host model_path then
        try_except
          (log INFO ("Loading LLM model from: " ++ model_path);;
           l <- await (Llama_new model_path 2048 4);;
           modify (with_llm (Some l));;
           log INFO "LLM model loaded successfully")
          (fun e =>
             log ERROR ("Failed to load LLM model: " ++ str e);;
             modify (with_llm None))
      else Ret tt
  | None =>
      log WARNING
        "LLM not configured. Set LLM environment variable to enable summarization.";;
      modify (with_llm None)
  end.

(** [BrowserTool._setup_browser]: [ensureReady]. *)
Definition _setup_browser : prog unit :=
  self <- get_self;;
  if _initializing self then Ret tt
  else
    finally
      (try_except
         (modify (with_initializing true);;
          self <- get_self;;
          match playwright self with
          | None =>
              log INFO "Starting Playwright...";;
              pw <- await async_playwright_start;;
              modify (with_playwright (Some pw))
          | Some _ => Ret tt
          end;;
          self <- get_self;;
          match browser self with
          | None =>
              log INFO "Launching browser...";;
              pw <- attr_of (playwright self) "chromium";;
              b <- await (chromium_launch pw true launch_args);;
              modify (with_browser (Some b))
          | Some _ => Ret tt
          end;;
          self <- get_self;;
          match page self with
          | None =>
              log INFO "Creating new page...";;
              b <- attr_of (browser self) "new_context";;
              context <- await (new_context b context_options);;
              p <- await (new_page context);;
              modify (with_page (Some p));;
              self <- get_self;;
              p <- attr_of (page self) "add_init_script";;
              await (add_init_script p init_script)
          | Some _ => Ret tt
          end;;
          log INFO "Browser setup complete")
         (fun e =>
            log ERROR ("Browser setup failed: " ++ str e);;
            Raise (mk_exn Exception ("Failed to initialize browser: " ++ str e))))
      (modify (with_initializing false)).

Record SearchResult := { title : json; url : json; snippet : json }.

(** What an f-string prints of a value. *)
Definition py_format (v : json) : string :=
  match v with
  | JStr s => s
  | _ => py_repr host v
  end.

(** The body of the [for] loop of [web_search], over the items still to
    visit and the list built so far. *)
Fixpoint collect (items : list json) (results : list SearchResult)
  : prog (list SearchResult) :=
  match items with
  | [] => Ret results
  | item :: items' =>
      title <- lift (py_get item "title" (JStr ""));;
      url <- lift (py_get item "url" (JStr ""));;
      content_snippet <- lift (py_get item "content" (JStr ""));;
      if truthy title && truthy url then
        let results :=
          (results ++ [{| title := title; url := url;
                          snippet := content_snippet |}])%list in
        shown <- lift (py_slice_to title 50);;
        log INFO ("Found result: " ++ py_format shown ++ "...");;
        collect items' results
      else collect items' results
  end.

(** The [try] block of [web_search]: the search interaction. *)
Definition search_attempt (search_url : string) (max_results : Z)
  : prog (list SearchResult) :=
  self <- get_self;;
  p <- attr_of (page self) "goto";;
  response <- await (page_goto p search_url networkidle None);;
  found <-
    match response with
    | Some resp =>
        if status resp =? 200 then
          self <- get_self;;
          p <- attr_of (page self) "content";;
          content <- await (page_content p);;
          match soup_find_pre host content with
          | Some json_text =>
              data <- lift (json_loads host json_text);;
              search_results <- lift (py_get data "results" (JList []));;
              considered <- lift (py_slice_to search_results max_results);;
              results <- collect (py_items considered) [];;
              log INFO ("Total results found: "
                        ++ str_of_nat (List.length results));;
              Ret (Some results)
          | None => Ret None
          end
        else Ret None
    | None => Ret None
    end;;
  match found with
  | Some results => Ret results
  | None =>
      log WARNING ("Failed to get results from SearXNG, status: "
                   ++ match response with
                      | Some resp => str_of_Z (status resp)
                      | None => "None"
                      end);;
      Ret []
  end.

(** The URL of the search: [quote_plus] encodes the query to UTF-8 and
    raises on a query that has no encoding (a lone surrogate). *)
Definition search_url_of (query : string) : result string :=
  let searxng_url :=
    match getenv host "SEARXNG_URL" with
    | Some v => v
    | None => "http://192.168.77.8:8888"
    end in
  match quote_plus host query with
  | Returned encoded_query =>
      Returned (searxng_url ++ "/search?q=" ++ encoded_query ++ "&format=json")
  | Raised e => Raised e
  end.

(** [BrowserTool.web_search] *)
Definition web_search (query : string) (max_results : Z)
  : prog (list SearchResult) :=
  _setup_browser;;
  search_url <- lift (search_url_of query);;
  log INFO ("Searching for: " ++ query);;
  log INFO ("SearXNG URL: " ++ search_url);;
  try_except
    (search_attempt search_url max_results)
    (fun e =>
       log ERROR ("SearXNG search error: " ++ str e);;
       Ret []).

(** [BrowserTool.navigate] *)
Definition navigate (url : string) (wait_for_element : option string)
    (wait_time : Z) : prog unit :=
  _setup_browser;;
  log INFO ("Navigating to: " ++ url);;
  try_except
    (self <- get_self;;
     p <- attr_of (page self) "goto";;
     response <- await (page_goto p url domcontentloaded (Some 30000));;
     match response with
     | None =>
         Raise (mk_exn Exception
                  ("Failed to navigate to " ++ url ++ " - no response received"))
     | Some resp =>
         (if 400 <=? status resp then
            log WARNING ("Navigation returned status " ++ str_of_Z (status resp)
                         ++ " for " ++ url)
          else Ret tt);;
         match given wait_for_element with
         | Some selector =>
             try_except
               (self <- get_self;;
                p <- attr_of (page self) "wait_for_selector";;
                await (wait_for_selector p selector (wait_time * 1000));;
                log INFO ("Successfully found element: " ++ selector))
               (fun e =>
                  Raise (mk_exn Exception
                           ("Element '" ++ selector ++ "' not found on page after "
                            ++ str_of_Z wait_time ++ "s: " ++ str e)))
         | None => Ret tt
         end;;
         log INFO ("Successfully navigated to " ++ url)
     end)
    (fun e =>
       log ERROR ("Navigation error for " ++ url ++ ": " ++ str e);;
       Raise (mk_exn Exception ("Failed to navigate to " ++ url ++ ": " ++ str e))).

(** [' '.join(text.split())] of the visible text of the markup. *)
Definition clean_text (content : string) : string :=
  join " " (split (soup_visible_text host content)).

(** [BrowserTool.extract_content] *)
Definition extract_content (url : option string) (wait_for_element : option string)
  : prog string :=
  _setup_browser;;
  match given url with
  | Some u => navigate u wait_for_element 10
  | None => Ret tt
  end;;
  self <- get_self;;
  match page self with
  | None => Raise no_page_loaded
  | Some p =>
      content <- await (page_content p);;
      let cleaned := clean_text content in
      log INFO ("Extracted " ++ str_of_nat (String.length cleaned)
                ++ " characters of content");;
      Ret cleaned
  end.

Definition newline : string := String "010"%char "".

(** [len(text) > 4000], and [text[:4000] + '...'] when it holds. *)
Definition too_long (text0 : string) : bool :=
  4000 <? Z.of_nat (String.length text0).
Definition truncated (text0 : string) : string :=
  if too_long text0 then substring 0 (Z.to_nat 4000) text0 ++ "..." else text0.

(** [BrowserTool.summarize] *)
Definition summarize (text0 : string) (max_tokens : Z) : prog string :=
  self <- get_self;;
  match llm self with
  | None => Raise no_attribute_llm
  | Some None => Raise llm_not_configured
  | Some (Some _) =>
      let text1 := truncated text0 in
      (if too_long text0 then log WARNING "Text truncated to fit context window"
       else Ret tt);;
      let prompt :=
        "Summarize the following text concisely:" ++ newline ++ newline
        ++ text1 ++ newline ++ newline ++ "Summary:" in
      try_except
        (self <- get_self;;
         engine <- match llm self with
                   | None => Raise no_attribute_llm
                   | Some None =>
                       Raise (mk_exn TypeError "'NoneType' object is not callable")
                   | Some (Some e) => Ret e
                   end;;
         output <- await (llm_complete engine prompt max_tokens);;
         match choices output with
         | [] => Raise (mk_exn IndexError "list index out of range")
         | choice :: _ =>
             let summary := strip isspace (text choice) in
             log INFO ("Generated summary of "
                       ++ str_of_nat (String.length summary) ++ " characters");;
             Ret summary
         end)
        (fun e =>
           log ERROR ("Summarization error: " ++ str e);;
           Raise (mk_exn Exception ("Failed to generate summary: " ++ str e)))
  end.

(** [BrowserTool.close] *)
Definition close : prog unit :=
  log INFO "Closing browser...";;
  try_except
    (self <- get_self;;
     match page self with
     | Some p => await (page_close p);; modify (with_page None)
     | None => Ret tt
     end;;
     self <- get_self;;
     match browser self with
     | Some b => await (browser_close b);; modify (with_browser None)
     | None => Ret tt
     end;;
     self <- get_self;;
     match playwright self with
     | Some pw => await (playwright_stop pw);; modify (with_playwright None)
     | None => Ret tt
     end;;
     log INFO "Browser closed successfully")
    (fun e =>
       log ERROR ("Error during browser cleanup: " ++ str e);;
       modify (with_page None);;
       modify (with_browser None);;
       modify (with_playwright None)).

End Class.

Arguments too_long : simpl never.
Arguments truncated : simpl never.

Local Open Scope list_scope.

(** ** One operation, run to completion *)

Inductive event :=
| Called {T : Type} (c : call T) (r : result T)
| Logged (l : level) (msg : string).

Record outcome (World A : Type) := {
  value : result A;
  self_after : BrowserTool;
  world_after : World;
  trace : list event }.
Arguments value {World A} o.
Arguments self_after {World A} o.
Arguments world_after {World A} o.
Arguments trace {World A} o.

Section Run.

(** The environment answers each call, returning or raising as it likes,
    and moves on. *)
Variable World : Type.
Variable respond : forall T : Type, call T -> World -> result T * World.

Fixpoint run {A} (p : prog A) (self : BrowserTool) (w : World) : outcome World A :=
  match p with
  | Ret a =>
      {| value := Returned a; self_after := self; world_after := w; trace := [] |}
  | Raise e =>
      {| value := Raised e; self_after := self; world_after := w; trace := [] |}
  | Call c k =>
      let answer := respond _ c w in
      let o := run (k (fst answer)) self (snd answer) in
      {| value := value o; self_after := self_after o;
         world_after := world_after o;
         trace := Called c (fst answer) :: trace o |}
  | Get k => run (k self) self w
  | Put self' k => run k self' w
  | Log l m k =>
      let o := run k self w in
      {| value := value o; self_after := self_after o;
         world_after := world_after o;
         trace := Logged l m :: trace o |}
  end.

End Run.

Arguments run {World} respond {A} p self w.

(** The calls [_setup_browser] makes. *)
Definition is_setup_call {T} (c : call T) : bool :=
  match c with
  | async_playwright_start | chromium_launch _ _ _ | new_context _ _
  | new_page _ | add_init_script _ _ => true
  | _ => false
  end.

(** The calls of a trace, without their answers. *)
Definition is_call (e : event) : bool :=
  match e with Called _ _ => true | Logged _ _ => false end.
Definition is_launch_event (e : event) : bool :=
  match e with Called c _ => is_launch c | Logged _ _ => false end.
Definition is_warning (e : event) : bool :=
  match e with Logged WARNING _ => true | _ => false end.

(** ** Cooperative interleaving *)

(** A coroutine between two steps of the event loop: finished, or suspended
    in an outside call. *)
Inductive task (A : Type) :=
| Done (r : result A)
| Blocked {T : Type} (c : call T) (k : result T -> prog A).
Arguments Done {A} r.
Arguments Blocked {A T} c k.

(** What a coroutine does without yielding: everything up to its next
    outside call.  Log lines are written on the way. *)
Fixpoint advance {A} (p : prog A) (self : BrowserTool) : task A * BrowserTool :=
  match p with
  | Ret a => (Done (Returned a), self)
  | Raise e => (Done (Raised e), self)
  | Call c k => (Blocked c k, self)
  | Get k => advance (k self) self
  | Put self' k => advance k self'
  | Log _ _ k => advance k self
  end.

Definition is_blocked {A} (t : task A) : bool :=
  match t with Blocked _ _ => true | Done _ => false end.

(** A coroutine suspended in the launch of the engine process. *)
Definition launching {A} (t : task A) : bool :=
  match t with
  | Blocked c _ => is_launch c
  | Done _ => false
  end.

(** The process handle a completed call delivers, if it was a launch. *)
Definition launched {T} (c : call T) : result T -> list Browser :=
  match c in call T0 return result T0 -> list Browser with
  | chromium_launch _ _ _ =>
      fun r => match r with Returned b => [b] | Raised _ => [] end
  | _ => fun _ => []
  end.

(** Any number of callers inside [_setup_browser] on one shared object:
    the object, the coroutines in the order they entered, and the process
    handles that launches have delivered so far. *)
Record pool := {
  shared : BrowserTool;
  tasks : list (task unit);
  handles : list Browser }.

(** A caller enters [_setup_browser] and runs to its first await. *)
Definition enter (P : pool) : pool :=
  let seg := advance _setup_browser (shared P) in
  {| shared := snd seg;
     tasks := tasks P ++ [fst seg];
     handles := handles P |}.

(** The event loop resumes the coroutine between [l1] and [l2], suspended
    in [c], with the outcome [r] of the call. *)
Definition resume (P : pool) (l1 l2 : list (task unit)) {T} (c : call T)
    (k : result T -> prog unit) (r : result T) : pool :=
  let seg := advance (k r) (shared P) in
  {| shared := snd seg;
     tasks := l1 ++ fst seg :: l2;
     handles := handles P ++ launched c r |}.

Inductive pool_step : pool -> pool -> Prop :=
| step_enter (P : pool) :
    pool_step P (enter P)
| step_resume (P : pool) l1 l2 {T} (c : call T) k (r : result T) :
    tasks P = l1 ++ Blocked c k :: l2 ->
    pool_step P (resume P l1 l2 c k r).

Definition start (self0 : BrowserTool) : pool :=
  {| shared := self0; tasks := []; handles := [] |}.

Inductive reachable (self0 : BrowserTool) : pool -> Prop :=
| reach_start : reachable self0 (start self0)
| reach_step P Q :
    reachable self0 P -> pool_step P Q -> reachable self0 Q.

Definition in_flight (P : pool) : nat :=
  List.length (filter is_blocked (tasks P)).

(** ** Example environments *)

(** What a scripted world answers: which calls raise, and what page loads,
    markup reads and completions deliver. *)
Record Answers := {
  start_raises : option exn;
  launch_raises : option exn;
  new_context_raises : option exn;
  new_page_raises : option exn;
  add_init_script_raises : option exn;
  goto_answer : result (option Response);
  content_answer : result string;
  wait_for_selector_raises : option exn;
  page_close_raises : option exn;
  browser_close_raises : option exn;
  stop_raises : option exn;
  Llama_raises : option exn;
  completion_answer : result Completion }.

Definition fresh {H} (mk : nat -> H) (raises : option exn) (n : nat)
  : result H * nat :=
  match raises with
  | Some e => (Raised e, n)
  | None => (Returned (mk n), S n)
  end.

Definition finish (raises : option exn) (n : nat) : result unit * nat :=
  match raises with
  | Some e => (Raised e, n)
  | None => (Returned tt, n)
  end.

(** A world whose state is the next unused handle number. *)
Definition scripted (a : Answers) (T : Type) (c : call T) (n : nat)
  : result T * nat :=
  match c in call T0 return result T0 * nat with
  | async_playwright_start => fresh PlaywrightHandle (start_raises a) n
  | chromium_launch _ _ _ => fresh BrowserHandle (launch_raises a) n
  | new_context _ _ => fresh ContextHandle (new_context_raises a) n
  | new_page _ => fresh PageHandle (new_page_raises a) n
  | add_init_script _ _ => finish (add_init_script_raises a) n
  | page_goto _ _ _ _ => (goto_answer a, n)
  | page_content _ => (content_answer a, n)
  | wait_for_selector _ _ _ => finish (wait_for_selector_raises a) n
  | page_close _ => finish (page_close_raises a) n
  | browser_close _ => finish (browser_close_raises a) n
  | playwright_stop _ => finish (stop_raises a) n
  | Llama_new _ _ _ => fresh LlamaHandle (Llama_raises a) n
  | llm_complete _ _ _ => (completion_answer a, n)
  end.

Definition blank_markup : string := "<html><head></head><body></body></html>".

(** Every call succeeds; pages load with status 200 and are empty. *)
Definition all_well : Answers :=
  {| start_raises := None; launch_raises := None; new_context_raises := None;
     new_page_raises := None; add_init_script_raises := None;
     goto_answer := Returned (Some {| status := 200 |});
     content_answer := Returned blank_markup;
     wait_for_selector_raises := None;
     page_close_raises := None; browser_close_raises := None;
     stop_raises := None; Llama_raises := None;
     completion_answer := Returned {| choices := [{| text := "Summary text" |}] |} |}.

Definition quoted (s : string) : string :=
  (String double_quote s ++ String double_quote "")%string.

(** The markup and the JSON text of a search page with the given
    [results] text. *)
Definition results_text (items : string) : string :=
  ("{" ++ quoted "results" ++ ": [" ++ items ++ "]}")%string.
Definition results_markup (items : string) : string :=
  ("<html><body><pre>" ++ results_text items ++ "</pre></body></html>")%string.

(** A host with an environment and a file system given by [env] and
    [files], which reads the markup and the JSON of one search page,
    [items] parsing to [parsed], and the blank page. *)
Definition example_host (env : string -> option string) (files : string -> bool)
    (items : string) (parsed : list json) : Host :=
  {| getenv := env;
     path_exists := files;
     quote_plus := fun s => Returned s;
     soup_find_pre := fun html =>
       if String.eqb html (results_markup items) then Some (results_text items)
       else None;
     soup_visible_text := fun html =>
       if String.eqb html blank_markup then ""%string
       else if String.eqb html (results_markup items) then results_text items
       else html;
     json_loads := fun t =>
       if String.eqb t (results_text items)
       then Returned (JDict [("results"%string, JList parsed)])
       else Raised (mk_exn JSONDecodeError "Expecting value: line 1 column 1 (char 0)");
     py_repr := fun v => type_name v |}.

Definition no_env : string -> option string := fun _ => None.
Definition no_files : string -> bool := fun _ => false.
Definition plain_host : Host := example_host no_env no_files "" [].

(** A freshly constructed object on a host without an [LLM] setting. *)
Definition fresh_tool : BrowserTool :=
  {| playwright := None; browser := None; page := None;
     _initializing := false; llm := Some None |}.

(** ** Composing outcomes *)

Section Outcomes.

Variable World : Type.

(** Running [p] and then, if it returned, the rest. *)
Definition and_then {A B} (o : outcome World A)
    (rest : A -> BrowserTool -> World -> outcome World B) : outcome World B :=
  match value o with
  | Returned a =>
      let o' := rest a (self_after o) (world_after o) in
      {| value := value o'; self_after := self_after o';
         world_after := world_after o'; trace := trace o ++ trace o' |}
  | Raised e =>
      {| value := Raised e; self_after := self_after o;
         world_after := world_after o; trace := trace o |}
  end.

(** Running [p] and then, if it raised, the handler. *)
Definition or_else {A} (o : outcome World A)
    (handler : exn -> BrowserTool -> World -> outcome World A) : outcome World A :=
  match value o with
  | Returned a => o
  | Raised e =>
      let o' := handler e (self_after o) (world_after o) in
      {| value := value o'; self_after := self_after o';
         world_after := world_after o'; trace := trace o ++ trace o' |}
  end.

End Outcomes.

Arguments and_then {World A B} o rest.
Arguments or_else {World A} o handler.

(** ** Reading the results of a search *)

(** [item.get(key, '')] of an entry of the [results] array. *)
Definition field (item : json) (key : string) : json :=
  match item with
  | JDict d => match lookup key d with Some v => v | None => JStr "" end
  | _ => JStr ""
  end.

(** An entry is kept when neither its title nor its url is missing or
    empty. *)
Definition kept (item : json) : bool :=
  truthy (field item "title") && truthy (field item "url").

Definition result_of (item : json) : SearchResult :=
  {| title := field item "title";
     url := field item "url";
     snippet := field item "content" |}.

(** The entries the loop gets through without raising: JSON objects, the
    title of a kept one being a string (or an array), of which a log line
    can show the first 50 items. *)
Definition well_formed (item : json) : bool :=
  match item with
  | JDict _ =>
      if kept item then
        match field item "title" with
        | JStr _ | JList _ => true
        | _ => false
        end
      else true
  | _ => false
  end.

(** ** The session invariant *)

(** A page is never present without the engine process, nor the process
    without the driver. *)
Definition handles_ordered (self : BrowserTool) : bool :=
  match playwright self, browser self, page self with
  | _, None, Some _ => false
  | None, Some _, _ => false
  | _, _, _ => true
  end.

(** A program that never assigns an attribute of [self]. *)
Fixpoint read_only {A} (p : prog A) : Prop :=
  match p with
  | Ret _ | Raise _ => True
  | Call _ k => forall r, read_only (k r)
  | Get k => forall self, read_only (k self)
  | Put _ _ => False
  | Log _ _ k => read_only k
  end.

Section Faults.

Variable World : Type.
Variable respond : forall T : Type, call T -> World -> result T * World.

(** When [navigate] is to raise: initialization failed or left no page, the
    load raised or gave no response, or a selector was asked for and the
    wait for it raised.  The status of the response plays no part. *)
Definition navigation_fault (self : BrowserTool) (w : World) (url : string)
    (wait_for_element : option string) (wait_time : Z) : bool :=
  let s := run respond _setup_browser self w in
  match value s, page (self_after s) with
  | Raised _, _ => true
  | Returned _, None => true
  | Returned _, Some p =>
      let loaded :=
        respond _ (page_goto p url domcontentloaded (Some 30000)) (world_after s) in
      match fst loaded with
      | Raised _ => true
      | Returned None => true
      | Returned (Some _) =>
          match given wait_for_element with
          | None => false
          | Some selector =>
              is_raised
                (fst (respond _ (wait_for_selector p selector (wait_time * 1000))
                        (snd loaded)))
          end
      end
  end.

(** The search failures: what went wrong between the object [self], ready
    after initialization, and the backend. *)
Inductive search_failure (host : Host) (self : BrowserTool) (w : World)
    (search_url : string) (max_results : Z) : Prop :=
| attempt_raised e :
    (* any exception inside the [try] block *)
    value (run respond (search_attempt host search_url max_results) self w)
    = Raised e ->
    search_failure host self w search_url max_results
| no_response p :
    page self = Some p ->
    fst (respond _ (page_goto p search_url networkidle None) w) = Returned None ->
    search_failure host self w search_url max_results
| bad_status p resp :
    page self = Some p ->
    fst (respond _ (page_goto p search_url networkidle None) w)
    = Returned (Some resp) ->
    status resp <> 200 ->
    search_failure host self w search_url max_results
| no_pre_block p resp html :
    page self = Some p ->
    fst (respond _ (page_goto p search_url networkidle None) w)
    = Returned (Some resp) ->
    status resp = 200 ->
    fst (respond _ (page_content p)
           (snd (respond _ (page_goto p search_url networkidle None) w)))
    = Returned html ->
    soup_find_pre host html = None ->
    search_failure host self w search_url max_results
| no_results_array p resp html json_text d :
    page self = Some p ->
    fst (respond _ (page_goto p search_url networkidle None) w)
    = Returned (Some resp) ->
    status resp = 200 ->
    fst (respond _ (page_content p)
           (snd (respond _ (page_goto p search_url networkidle None) w)))
    = Returned html ->
    soup_find_pre host html = Some json_text ->
    json_loads host json_text = Returned (JDict d) ->
    lookup "results" d = None ->
    search_failure host self w search_url max_results.

End Faults.

Arguments navigation_fault {World} respond self w url wait_for_element wait_time.
Arguments search_failure {World} respond host self w search_url max_results.

Arguments clean_text : simpl never.
Arguments str_of_nat : simpl never.
Arguments str_of_Z : simpl never.

Section Preservation.

Variable World : Type.
Variable respond : forall T : Type, call T -> World -> result T * World.

(** A program keeps a property of the object, however the environment
    answers and whether it returns or raises. *)
Definition preserves {A} (P : BrowserTool -> Prop) (p : prog A) : Prop :=
  forall self w, P self -> P (self_after (run respond p self w)).

End Preservation.

Arguments preserves {World} respond {A} P p.

Definition ordered (self : BrowserTool) : Prop := handles_ordered self = true.

(** ** Sequences of tool calls *)

(** The operations of the session manager, as the tool layer calls them. *)
Inductive operation :=
| EnsureReady
| WebSearch (query : string) (max_results : Z)
| Navigate (url : string) (wait_for_element : option string) (wait_time : Z)
| ExtractContent (url : option string) (wait_for_element : option string)
| Summarize (text0 : string) (max_tokens : Z)
| Close.

Definition perform (host : Host) (op : operation) : prog unit :=
  match op with
  | EnsureReady => _setup_browser
  | WebSearch query max_results =>
      bind (web_search host query max_results) (fun _ => Ret tt)
  | Navigate url wait_for_element wait_time =>
      navigate url wait_for_element wait_time
  | ExtractContent url wait_for_element =>
      bind (extract_content host url wait_for_element) (fun _ => Ret tt)
  | Summarize text0 max_tokens =>
      bind (summarize text0 max_tokens) (fun _ => Ret tt)
  | Close => close
  end.

Section Boundaries.

Variable World : Type.
Variable respond : forall T : Type, call T -> World -> result T * World.

(** The object at each operation boundary of a sequence of calls made one
    after the other, a fault of one call not stopping the next. *)
Fixpoint boundaries (host : Host) (ops : list operation) (self : BrowserTool)
    (w : World) : list BrowserTool :=
  match ops with
  | [] => []
  | op :: ops' =>
      let o := run respond (perform host op) self w in
      self_after o :: boundaries host ops' (self_after o) (world_after o)
  end.

End Boundaries.

Arguments boundaries {World} respond host ops self w.

(** ** The initialization in flight *)

(** What is known of a coroutine of [_setup_browser] on the object [self]
    it shares, for [n] further awaits: finished, it has cleared the flag;
    suspended, it holds the flag, waits for one of the calls of
    initialization, waits for a launch only while the object has no process
    handle, and, resumed with any outcome, keeps a handle the object has,
    stores the handle a launch delivers, and is again as described. *)
Fixpoint task_ok (n : nat) (t : task unit) (self : BrowserTool) : Prop :=
  match t with
  | Done _ => _initializing self = false
  | Blocked c k =>
      _initializing self = true
      /\ is_setup_call c = true
      /\ (is_launch c = true -> browser self = None)
      /\ match n with
         | O => False
         | S n' =>
             forall r,
               let seg := advance (k r) self in
               (browser self <> None -> browser (snd seg) <> None)
               /\ (launched c r <> [] -> browser (snd seg) <> None)
               /\ task_ok n' (fst seg) (snd seg)
         end
  end.

Definition finished {A} (t : task A) : Prop := is_blocked t = false.

(** The invariant of the pool: at most one process handle was ever
    delivered, and the object holds one if so; either the flag is clear and
    every coroutine has finished, or the flag is set and exactly one
    coroutine is suspended, the one that set it. *)
Definition pool_inv (P : pool) : Prop :=
  (List.length (handles P) <= 1)%nat
  /\ (handles P <> [] -> browser (shared P) <> None)
  /\ ((_initializing (shared P) = false /\ Forall finished (tasks P))
      \/ (exists l1 t l2 n,
             tasks P = l1 ++ t :: l2
             /\ Forall finished l1 /\ Forall finished l2
             /\ is_blocked t = true
             /\ task_ok n t (shared P))).

(** ** Example sessions *)

(** A world in which every call succeeds, page loads answer [goto] and the
    page reads as [markup]. *)
Definition answering (goto : result (option Response)) (markup : result string)
  : Answers :=
  {| start_raises := None; launch_raises := None; new_context_raises := None;
     new_page_raises := None; add_init_script_raises := None;
     goto_answer := goto;
     content_answer := markup;
     wait_for_selector_raises := None;
     page_close_raises := None; browser_close_raises := None;
     stop_raises := None; Llama_raises := None;
     completion_answer := Returned {| choices := [{| text := "Summary text" |}] |} |}.

(** A world in which the engine process cannot be launched. *)
Definition launch_failing : Answers :=
  {| start_raises := None;
     launch_raises := Some (mk_exn Exception "Executable doesn't exist");
     new_context_raises := None;
     new_page_raises := None; add_init_script_raises := None;
     goto_answer := Returned (Some {| status := 200 |});
     content_answer := Returned blank_markup;
     wait_for_selector_raises := None;
     page_close_raises := None; browser_close_raises := None;
     stop_raises := None; Llama_raises := None;
     completion_answer := Returned {| choices := [] |} |}.

(** An environment in which only [LLM] is set. *)
Definition llm_env (model_path : string) : string -> option string :=
  fun name => if String.eqb name "LLM" then Some model_path else None.

(** An entry of the [results] array, as text and as parsed. *)
Definition entry_text (t u c : string) : string :=
  ("{" ++ quoted "title" ++ ": " ++ t ++ ", " ++ quoted "url" ++ ": " ++ u
   ++ ", " ++ quoted "content" ++ ": " ++ c ++ "}")%string.
Definition entry (t u c : json) : json :=
  JDict [("title"%string, t); ("url"%string, u); ("content"%string, c)].

(** Two valid entries. *)
Definition two_entries_text : string :=
  (entry_text (quoted "T1") (quoted "http://u1") (quoted "c1") ++ ", "
   ++ entry_text (quoted "T2") (quoted "http://u2") (quoted "c2"))%string.
Definition two_entries : list json :=
  [entry (JStr "T1") (JStr "http://u1") (JStr "c1");
   entry (JStr "T2") (JStr "http://u2") (JStr "c2")].

(** A valid entry followed by [null]. *)
Definition entry_then_null_text : string :=
  (entry_text (quoted "T") (quoted "http://u") (quoted "c") ++ ", null")%string.
Definition entry_then_null : list json :=
  [entry (JStr "T") (JStr "http://u") (JStr "c"); JNull].

(** An entry whose title is the number 5. *)
Definition numeric_title_text : string :=
  entry_text "5" (quoted "http://u") (quoted "c").
Definition numeric_title : list json :=
  [entry (JInt 5) (JStr "http://u") (JStr "c")].

(** The search backend serving the page with the given [results]. *)
Definition serving (items : string) : Answers :=
  answering (Returned (Some {| status := 200 |})) (Returned (results_markup items)).
Definition search_host (items : string) (parsed : list json) : Host :=
  example_host no_env no_files items parsed.

(** A world in which the awaited element never appears. *)
Definition selector_missing : Answers :=
  {| start_raises := None; launch_raises := None; new_context_raises := None;
     new_page_raises := None; add_init_script_raises := None;
     goto_answer := Returned (Some {| status := 200 |});
     content_answer := Returned blank_markup;
     wait_for_selector_raises := Some (mk_exn Exception "Timeout");
     page_close_raises := None; browser_close_raises := None;
     stop_raises := None; Llama_raises := None;
     completion_answer := Returned {| choices := [] |} |}.

(** A world in which closing the page raises. *)
Definition close_failing : Answers :=
  {| start_raises := None; launch_raises := None; new_context_raises := None;
     new_page_raises := None; add_init_script_raises := None;
     goto_answer := Returned (Some {| status := 200 |});
     content_answer := Returned blank_markup;
     wait_for_selector_raises := None;
     page_close_raises := Some (mk_exn Exception "Target closed");
     browser_close_raises := None;
     stop_raises := None; Llama_raises := None;
     completion_answer := Returned {| choices := [] |} |}.

(** An open session. *)
Definition open_tool : BrowserTool :=
  {| playwright := Some (PlaywrightHandle 0); browser := Some (BrowserHandle 1);
     page := Some (PageHandle 3); _initializing := false; llm := Some None |}.

(** ** Further readings of the class *)

(** [' '.join(text.split())] *)
Definition normalize (text0 : string) : string := join " " (split text0).

(** A word of [split]: not empty, no whitespace in it. *)
Definition is_word (s : string) : bool :=
  negb (String.eqb s "") && forallb (fun c => negb (isspace c)) (list_ascii_of_string s).

(** The prompt [summarize] builds around the text. *)
Definition prompt_of (text0 : string) : string :=
  ("Summarize the following text concisely:" ++ newline ++ newline
   ++ truncated text0 ++ newline ++ newline ++ "Summary:")%string.

(** The calls of a trace that create a handle. *)
Definition starts_driver (e : event) : bool :=
  match e with
  | Called c _ => match c with async_playwright_start => true | _ => false end
  | Logged _ _ => false
  end.
Definition creates_page (e : event) : bool :=
  match e with
  | Called c _ =>
      match c with
      | new_context _ _ | new_page _ | add_init_script _ _ => true
      | _ => false
      end
  | Logged _ _ => false
  end.
Definition loads_model (e : event) : bool :=
  match e with
  | Called c _ => match c with Llama_new _ _ _ => true | _ => false end
  | Logged _ _ => false
  end.
Definition is_error (e : event) : bool :=
  match e with Logged ERROR _ => true | _ => false end.

(** What [close] releases. *)
Inductive release :=
| ReleasePage (p : Page)
| ReleaseBrowser (b : Browser)
| ReleaseDriver (pw : Playwright).

Definition release_of (e : event) : list release :=
  match e with
  | Called c _ =>
      match c with
      | page_close p => [ReleasePage p]
      | browser_close b => [ReleaseBrowser b]
      | playwright_stop pw => [ReleaseDriver pw]
      | _ => []
      end
  | Logged _ _ => []
  end.

(** The releases requested in a trace, in order, and whether one of the
    calls of the trace raised. *)
Definition releases (tr : list event) : list release := flat_map release_of tr.
Definition call_raised (e : event) : bool :=
  match e with Called _ (Raised _) => true | _ => false end.

(** The handles an object holds, in the order [close] releases them. *)
Definition held (self : BrowserTool) : list release :=
  match page self with Some p => [ReleasePage p] | None => [] end
  ++ match browser self with Some b => [ReleaseBrowser b] | None => [] end
  ++ match playwright self with Some pw => [ReleaseDriver pw] | None => [] end.

(** What every operation but [close] leaves in place: a handle the object
    holds, the in-progress flag, the engine. *)
Definition keeps (self self' : BrowserTool) : Prop :=
  (forall pw, playwright self = Some pw -> playwright self' = Some pw)
  /\ (forall b, browser self = Some b -> browser self' = Some b)
  /\ (forall p, page self = Some p -> page self' = Some p)
  /\ _initializing self' = _initializing self
  /\ llm self' = llm self.

(** Two runs that cannot be told apart but by their log lines. *)
Definition same_effect {World A} (o1 o2 : outcome World A) : Prop :=
  value o1 = value o2
  /\ self_after o1 = self_after o2
  /\ world_after o1 = world_after o2
  /\ filter is_call (trace o1) = filter is_call (trace o2).

(** A program all of whose outside calls are among the [allowed] ones. *)
Fixpoint calls_only (allowed : forall T : Type, call T -> bool) {A} (p : prog A)
  : Prop :=
  match p with
  | Ret _ | Raise _ => True
  | Call c k => allowed _ c = true /\ forall r, calls_only allowed (k r)
  | Get k => forall self, calls_only allowed (k self)
  | Put _ k => calls_only allowed k
  | Log _ _ k => calls_only allowed k
  end.

(** The outside calls each operation is written to make. *)
Definition permitted (op : operation) (T : Type) (c : call T) : bool :=
  match op with
  | EnsureReady => is_setup_call c
  | WebSearch _ _ =>
      is_setup_call c
      || match c with page_goto _ _ _ _ | page_content _ => true | _ => false end
  | Navigate _ _ _ =>
      is_setup_call c
      || match c with
         | page_goto _ _ _ _ | wait_for_selector _ _ _ => true
         | _ => false
         end
  | ExtractContent _ _ =>
      is_setup_call c
      || match c with
         | page_goto _ _ _ _ | wait_for_selector _ _ _ | page_content _ => true
         | _ => false
         end
  | Summarize _ _ => match c with llm_complete _ _ _ => true | _ => false end
  | Close =>
      match c with
      | page_close _ | browser_close _ | playwright_stop _ => true
      | _ => false
      end
  end.

Definition within (allowed : forall T : Type, call T -> bool) (e : event) : bool :=
  match e with
  | Called c _ => allowed _ c
  | Logged _ _ => true
  end.

(** ** The tool layer, [src/main.py] *)

Module main.

(** What a tool returns: the dicts of [main.py]. *)
Inductive tool_reply :=
| Results (results : list SearchResult)
| Status (status0 message : string)
| Content (content : string)
| Summary (summary : string)
| PageContent (url0 content : string).

(** A tool call run to completion: what it returns or raises, the module
    global [_browser_tool_instance] afterwards ([None], or the object with
    its attributes), the environment, and what was called and logged. *)
Record served (World A : Type) := {
  reply : result A;
  instance : option BrowserTool;
  world : World;
  events : list event }.
Arguments reply {World A} s.
Arguments instance {World A} s.
Arguments world {World A} s.
Arguments events {World A} s.

Section Tools.

Variable host : Host.
Variable World : Type.
Variable respond : forall T : Type, call T -> World -> result T * World.

(** [get_browser_tool]: the instance, constructed on first use. *)
Definition get_browser_tool (g : option BrowserTool) (w : World)
  : served World BrowserTool :=
  match g with
  | Some tool =>
      {| reply := Returned tool; instance := Some tool; world := w; events := [] |}
  | None =>
      let o := run respond (__init__ host) blank w in
      match value o with
      | Returned _ =>
          {| reply := Returned (self_after o); instance := Some (self_after o);
             world := world_after o; events := trace o |}
      | Raised e =>
          {| reply := Raised e; instance := None;
             world := world_after o; events := trace o |}
      end
  end.

(** [browser = await get_browser_tool()] followed by the awaits of a tool
    on the instance and the dict it returns. *)
Definition on_browser {A} (p : prog A) (wrap : A -> tool_reply)
    (g : option BrowserTool) (w : World) : served World tool_reply :=
  let got := get_browser_tool g w in
  match reply got with
  | Returned tool =>
      let o := run respond p tool (world got) in
      {| reply := match value o with
                  | Returned a => Returned (wrap a)
                  | Raised e => Raised e
                  end;
         instance := Some (self_after o);
         world := world_after o;
         events := events got ++ trace o |}
  | Raised e =>
      {| reply := Raised e; instance := instance got; world := world got;
         events := events got |}
  end.

(** [cleanup_browser] *)
Definition cleanup_browser (g : option BrowserTool) (w : World)
  : served World unit :=
  match g with
  | Some tool =>
      let o := run respond close tool w in
      match value o with
      | Returned _ =>
          {| reply := Returned tt; instance := None;
             world := world_after o; events := trace o |}
      | Raised e =>
          {| reply := Raised e; instance := Some (self_after o);
             world := world_after o; events := trace o |}
      end
  | None => {| reply := Returned tt; instance := None; world := w; events := [] |}
  end.

(** The tool [get_page_content]: [navigate] and then [extract_content]
    with no argument. *)
Definition get_page_content (url0 : string) :=
  on_browser
    (bind (navigate url0 None 10) (fun _ => extract_content host None None))
    (PageContent url0).

Definition web_search (query : string) (max_results : Z) :=
  on_browser (web_search host query max_results) Results.

Definition navigate (url0 : string) (wait_for_element : option string)
    (wait_time : Z) :=
  on_browser (navigate url0 wait_for_element wait_time)
    (fun _ => Status "success" ("Navigated to " ++ url0)).

Definition extract_content (url0 : option string)
    (wait_for_element : option string) :=
  on_browser (extract_content host url0 wait_for_element) Content.

Definition summarize (text0 : string) (max_tokens : Z) :=
  on_browser (summarize text0 max_tokens) Summary.

Definition close_browser (g : option BrowserTool) (w : World)
  : served World tool_reply :=
  let c := cleanup_browser g w in
  {| reply := match reply c with
              | Returned _ => Returned (Status "success" "Browser closed successfully")
              | Raised e => Raised e
              end;
     instance := instance c; world := world c; events := events c |}.

(** The tool calls a client can make. *)
Inductive request :=
| WebSearchTool (query : string) (max_results : Z)
| NavigateTool (url0 : string) (wait_for_element : option string) (wait_time : Z)
| ExtractContentTool (url0 : option string) (wait_for_element : option string)
| SummarizeTool (text0 : string) (max_tokens : Z)
| GetPageContentTool (url0 : string)
| CloseBrowserTool.

Definition handle (req : request) : option BrowserTool -> World -> served World tool_reply :=
  match req with
  | WebSearchTool query max_results => web_search query max_results
  | NavigateTool url0 wait_for_element wait_time =>
      navigate url0 wait_for_element wait_time
  | ExtractContentTool url0 wait_for_element => extract_content url0 wait_for_element
  | SummarizeTool text0 max_tokens => summarize text0 max_tokens
  | GetPageContentTool url0 => get_page_content url0
  | CloseBrowserTool => close_browser
  end.

(** The outcomes of a sequence of tool calls served one after the other,
    starting with the global [g]. *)
Fixpoint serve (reqs : list request) (g : option BrowserTool) (w : World)
  : list (served World tool_reply) :=
  match reqs with
  | [] => []
  | req :: reqs' =>
      let s := handle req g w in
      s :: serve reqs' (instance s) (world s)
  end.

End Tools.

(** The instance between two tool calls: not constructed yet or let go, or
    an object whose handles are ordered and whose in-progress flag is
    clear. *)
Definition tool_settled (tool : BrowserTool) : Prop :=
  handles_ordered tool = true /\ _initializing tool = false.
Definition settled (g : option BrowserTool) : Prop :=
  match g with
  | None => True
  | Some tool => tool_settled tool
  end.

Arguments get_browser_tool host {World} respond g w.
Arguments on_browser host {World} respond {A} p wrap g w.
Arguments cleanup_browser {World} respond g w.
Arguments get_page_content host {World} respond url0 g w.
Arguments web_search host {World} respond query max_results g w.
Arguments navigate host {World} respond url0 wait_for_element wait_time g w.
Arguments extract_content host {World} respond url0 wait_for_element g w.
Arguments summarize host {World} respond text0 max_tokens g w.
Arguments close_browser {World} respond g w.
Arguments handle host {World} respond req g w.
Arguments serve host {World} respond reqs g w.

End main.

(** ** Further example sessions *)

(** An object with an engine bound. *)
Definition engine_tool : BrowserTool :=
  {| playwright := None; browser := None; page := None;
     _initializing := false; llm := Some (Some (LlamaHandle 0)) |}.

(** A host whose [LLM] setting is [setting] and on which every file
    exists. *)
Definition model_host (setting : string) : Host :=
  example_host (llm_env setting) (fun _ => true) "" [].

(** A world whose pages read as a text with runs of spaces. *)
Definition spaced_page : Answers :=
  answering (Returned (Some {| status := 200 |})) (Returned "Hello   World ").

(** ** Operations overlapping on one object *)

Definition is_close (op : operation) : bool :=
  match op with Close => true | _ => false end.

(** A caller enters an operation and runs to its first await. *)
Definition spawn (p : prog unit) (P : pool) : pool :=
  let seg := advance p (shared P) in
  {| shared := snd seg;
     tasks := tasks P ++ [fst seg];
     handles := handles P |}.

(** The steps of a session whose callers overlap: a caller enters any
    operation ([close] only where [closing] allows it), or the event loop
    resumes a suspended coroutine with the outcome of its call. *)
Inductive session_step (host : Host) (closing : bool) : pool -> pool -> Prop :=
| session_call (P : pool) (op : operation) :
    implb (is_close op) closing = true ->
    session_step host closing P (spawn (perform host op) P)
| session_resume (P : pool) l1 l2 {T} (c : call T) k (r : result T) :
    tasks P = l1 ++ Blocked c k :: l2 ->
    session_step host closing P (resume P l1 l2 c k r).

Inductive session (host : Host) (closing : bool) (self0 : BrowserTool)
  : pool -> Prop :=
| session_start : session host closing self0 (start self0)
| session_next P Q :
    session host closing self0 P -> session_step host closing P Q ->
    session host closing self0 Q.

(** A schedule: which caller enters, which coroutine is resumed. *)
Inductive move :=
| Enter (op : operation)
| Resume (i : nat).

Section Play.

Variable host : Host.
Variable World : Type.
Variable respond : forall T : Type, call T -> World -> result T * World.

(** A schedule played against an environment, which answers the call of
    the coroutine that is resumed.  A move that resumes no suspended
    coroutine is skipped. *)
Fixpoint play (moves : list move) (P : pool) (w : World) : pool * World :=
  match moves with
  | [] => (P, w)
  | Enter op :: moves' => play moves' (spawn (perform host op) P) w
  | Resume i :: moves' =>
      match skipn i (tasks P) with
      | Blocked c k :: l2 =>
          let answer := respond _ c w in
          play moves' (resume P (firstn i (tasks P)) l2 c k (fst answer))
            (snd answer)
      | _ => play moves' P w
      end
  end.

End Play.

Arguments play host {World} respond moves P w.

(** What the other coroutines may do to the object while one is
    suspended without disturbing [close]: store no handle. *)
Definition stores_no_handle (self self' : BrowserTool) : Prop :=
  (page self = None -> page self' = None)
  /\ (browser self = None -> browser self' = None)
  /\ (playwright self = None -> playwright self' = None).

(** A coroutine among others: within [n] awaits, whatever its calls
    answer and whatever the others, within [others], have made of the
    object each time it is resumed, it ends, and ends as [post] says. *)
Fixpoint ends_with {A} (others : BrowserTool -> BrowserTool -> Prop)
    (post : result A -> BrowserTool -> Prop) (n : nat) (t : task A)
    (self : BrowserTool) : Prop :=
  match t with
  | Done r => post r self
  | Blocked c k =>
      match n with
      | O => False
      | S n' =>
          forall r self',
            others self self' ->
            ends_with others post n' (fst (advance (k r) self'))
              (snd (advance (k r) self'))
      end
  end.

(** A coroutine that assigns no attribute any more. *)
Definition quiet {A} (t : task A) : Prop :=
  match t with
  | Done _ => True
  | Blocked c k => forall r, read_only (k r)
  end.

(** A program that, entered on [self], leaves it alone up to its first
    await and is quiet from then on. *)
Definition calm {A} (p : prog A) (self : BrowserTool) : Prop :=
  snd (advance p self) = self /\ quiet (fst (advance p self)).

(** An object on which initialization has nothing to do. *)
Definition ready (self : BrowserTool) : Prop :=
  _initializing self = false
  /\ playwright self <> None /\ browser self <> None /\ page self <> None.

(** A coroutine of [_setup_browser] on the object it alone assigns, for
    [n] further awaits: suspended, it holds the flag and, resumed with any
    outcome, leaves the handles ordered; finished, it has cleared the flag,
    and left the object ready if it returned. *)
Fixpoint initializing (n : nat) (t : task unit) (self : BrowserTool) : Prop :=
  match t with
  | Done (Returned _) => ready self
  | Done (Raised _) => _initializing self = false
  | Blocked c k =>
      _initializing self = true
      /\ match n with
         | O => False
         | S n' =>
             forall r,
               let seg := advance (k r) self in
               handles_ordered (snd seg) = true
               /\ initializing n' (fst seg) (snd seg)
         end
  end.

(** The coroutine that holds the in-progress flag, for [n] further
    awaits: resumed with any outcome on the object as it left it, it
    leaves the handles ordered, and either holds the flag still, suspended
    again, or has cleared it and is quiet. *)
Fixpoint holder {A} (n : nat) (t : task A) (self : BrowserTool) : Prop :=
  match t with
  | Done _ => False
  | Blocked c k =>
      match n with
      | O => False
      | S n' =>
          forall r,
            let seg := advance (k r) self in
            handles_ordered (snd seg) = true
            /\ if _initializing (snd seg)
               then holder n' (fst seg) (snd seg)
               else quiet (fst seg)
      end
  end.

(** What entering a program on an object with ordered handles does: with
    the flag set, nothing to the object, and the coroutine is quiet; with
    the flag clear, the handles stay ordered and the coroutine either
    takes the flag and holds it, or is quiet. *)
Definition enters {A} (p : prog A) (self : BrowserTool) : Prop :=
  let seg := advance p self in
  (_initializing self = true -> snd seg = self /\ quiet (fst seg))
  /\ (_initializing self = false ->
      handles_ordered (snd seg) = true
      /\ if _initializing (snd seg)
         then holder 5 (fst seg) (snd seg)
         else quiet (fst seg)).

(** The invariant of a session in which no caller closes: the handles are
    ordered; either the flag is clear and every coroutine is quiet, or the
    flag is set and one coroutine holds it, the others being quiet. *)
Definition session_inv (P : pool) : Prop :=
  handles_ordered (shared P) = true
  /\ ((_initializing (shared P) = false /\ Forall quiet (tasks P))
      \/ (_initializing (shared P) = true
          /\ exists l1 t l2 n,
               tasks P = l1 ++ t :: l2
               /\ Forall quiet l1 /\ Forall quiet l2
               /\ holder n t (shared P))).

(** A first caller initializes; while it waits for the page, a second
    caller closes. *)
Definition close_during_setup : list move :=
  [Enter EnsureReady; Resume 0; Resume 0; Resume 0;
   Enter Close; Resume 0; Resume 1; Resume 1].

(** What a coroutine has returned or raised, if it has finished. *)
Definition outcome_of {A} (t : task A) : option (result A) :=
  match t with
  | Done r => Some r
  | Blocked _ _ => None
  end.

(** A host on which no query can be encoded. *)
Definition unencodable : exn :=
  mk_exn UnicodeEncodeError
    "'utf-8' codec can't encode character '\udc80' in position 0: surrogates not allowed".
Definition unencodable_host : Host :=
  {| getenv := getenv plain_host;
     path_exists := path_exists plain_host;
     quote_plus := fun _ => Raised unencodable;
     soup_find_pre := soup_find_pre plain_host;
     soup_visible_text := soup_visible_text plain_host;
     json_loads := json_loads plain_host;
     py_repr := py_repr plain_host |}.

(** * Properties *)

(** ** The sequential semantics of the combinators *)

(** Case analysis on the answers of the environment, one call at a time. *)
Ltac answer_cases :=
  repeat match goal with
         | |- context [fst (?r ?T ?c ?w)] =>
             let a := fresh "a" in
             let e := fresh "e" in
             let w' := fresh "w" in
             destruct (r T c w) as [[a | e] w']; cbn
         end.

Ltac handle_cases self :=
  let pw := fresh "pw" in
  let b := fresh "b" in
  let p := fresh "p" in
  let i := fresh "i" in
  let l := fresh "l" in
  destruct self as [[pw|] [b|] [p|] i l].

(** ** Teardown among other callers *)

Ltac interference_cases :=
  repeat first
    [ progress cbn
    | match goal with
      | |- forall (r : result _) (self' : BrowserTool), _ =>
          let pw := fresh "pw" in
          let b := fresh "b" in
          let p := fresh "p" in
          let i := fresh "i" in
          let l := fresh "l" in
          let O := fresh "O" in
          intros [[] | ?] [pw b p i l] O; cbn in O
      | |- context [match ?x with Some _ => _ | None => _ end] =>
          is_var x; destruct x
      | H : _ /\ _ |- _ => destruct H
      | H : ?x = ?x -> _ |- _ => specialize (H eq_refl)
      | H : Some _ = None |- _ => discriminate H
      | |- _ /\ _ => split
      | |- ?x = ?x => reflexivity
      | |- True => exact I
      end ].

(** Whatever the other callers do to the object while [close] is
    suspended, [close] returns, after three awaits at most, and returns
    normally. *)
Lemma close_returns_among_others (self : BrowserTool) :
  ends_with (fun _ _ => True) (fun r _ => r = Returned tt) 3
    (fst (advance close self)) (snd (advance close self)).
Proof.
  handle_cases self; interference_cases.
Qed.

(** When the others store no handle while [close] is suspended, it leaves
    none. *)
Lemma close_empties_among_others (self : BrowserTool) :
  ends_with stores_no_handle
    (fun r final =>
       r = Returned tt
       /\ page final = None /\ browser final = None /\ playwright final = None)
    3 (fst (advance close self)) (snd (advance close self)).
Proof.
  unfold stores_no_handle.
  handle_cases self; interference_cases; intuition congruence.
Qed.

Section Sequential.

Variable World : Type.
Variable respond : forall T : Type, call T -> World -> result T * World.

Lemma outcome_eta {A} (o : outcome World A) :
  {| value := value o; self_after := self_after o;
     world_after := world_after o; trace := trace o |} = o.
Proof. destruct o; reflexivity. Qed.

Lemma run_bind {A B} (p : prog A) (f : A -> prog B) self w :
  run respond (bind p f) self w = and_then (run respond p self w) (fun a => run respond (f a)).
Proof.
  revert self w.
  induction p as [a | e | T c k IH | k IH | s k IH | l m k IH]; intros self w; cbn.
  - unfold and_then; cbn. now rewrite outcome_eta.
  - reflexivity.
  - rewrite IH. unfold and_then; cbn.
    destruct (value (run respond (k _) self _)); reflexivity.
  - apply IH.
  - apply IH.
  - rewrite IH. unfold and_then; cbn.
    destruct (value (run respond k self w)); reflexivity.
Qed.

Lemma run_try_except {A} (p : prog A) (handler : exn -> prog A) self w :
  run respond (try_except p handler) self w
  = or_else (run respond p self w) (fun e => run respond (handler e)).
Proof.
  revert self w.
  induction p as [a | e | T c k IH | k IH | s k IH | l m k IH]; intros self w; cbn.
  - reflexivity.
  - unfold or_else; cbn. now rewrite outcome_eta.
  - rewrite IH. unfold or_else; cbn.
    destruct (value (run respond (k _) self _)) eqn:E; cbn; rewrite ?E; reflexivity.
  - apply IH.
  - apply IH.
  - rewrite IH. unfold or_else; cbn.
    destruct (value (run respond k self w)) eqn:E; cbn; rewrite ?E; reflexivity.
Qed.

(** ** Teardown *)

(** C4 (as amended). [close] returns normally from every state of the
    object and against every environment, also one in which closing a
    handle raises, and also among other callers, whatever these do to the
    object while [close] is suspended.  Run with no other caller resumed
    in between, and more generally whenever the others store no handle
    while it is suspended, it leaves the page, process and driver handles
    all absent, the in-progress flag and the inference engine untouched.
    A second [close] then finds nothing to release: it makes no outside
    call, returns normally and leaves the object as the first one left
    it. *)
Theorem close_always_empties (self : BrowserTool) (w : World) :
  let o := run respond close self w in
  value o = Returned tt
  /\ page (self_after o) = None
  /\ browser (self_after o) = None
  /\ playwright (self_after o) = None
  /\ _initializing (self_after o) = _initializing self
  /\ llm (self_after o) = llm self
  /\ ends_with (fun _ _ => True) (fun r _ => r = Returned tt) 3
       (fst (advance close self)) (snd (advance close self))
  /\ ends_with stores_no_handle
       (fun r final =>
          r = Returned tt
          /\ page final = None /\ browser final = None
          /\ playwright final = None)
       3 (fst (advance close self)) (snd (advance close self))
  /\ forall w' : World,
       let o' := run respond close (self_after o) w' in
       value o' = Returned tt
       /\ self_after o' = self_after o
       /\ world_after o' = w'
       /\ filter is_call (trace o') = [].
Proof.
  cbn zeta.
  split; [| split; [| split; [| split; [| split; [| split; [| split; [| split]]]]]]];
    try apply close_returns_among_others;
    try apply close_empties_among_others;
    handle_cases self; cbn; answer_cases; repeat split.
Qed.

(** ** Initialization *)

(** Initialization returns whenever the environment lets its calls
    return. *)
Lemma setup_browser_returns (self : BrowserTool) (w : World) :
  (forall T (c : call T) w', is_setup_call c = true ->
                             is_raised (fst (respond T c w')) = false) ->
  value (run respond _setup_browser self w) = Returned tt.
Proof.
  intros H. handle_cases self; destruct i; cbn; try reflexivity;
    repeat match goal with
           | |- context [fst (respond ?T ?c ?w)] =>
               let E := fresh "E" in
               pose proof (H T c w eq_refl) as E;
               destruct (respond T c w) as [[? | ?] ?]; cbn in E |- *;
               try discriminate E; clear E
           end; reflexivity.
Qed.

(** The in-progress flag is clear after every call that found it clear,
    whether the call returned or raised. *)
Lemma setup_browser_clears_flag (self : BrowserTool) (w : World) :
  _initializing self = false ->
  _initializing (self_after (run respond _setup_browser self w)) = false.
Proof.
  intros H. handle_cases self; cbn in H; subst; cbn; answer_cases; reflexivity.
Qed.


(** ** Summarization *)

(** [summarize] never writes an attribute of the object. *)
Lemma summarize_frame (self : BrowserTool) (w : World) text0 max_tokens :
  self_after (run respond (summarize text0 max_tokens) self w) = self.
Proof.
  destruct self as [pw b p i [[l|]|]]; cbn; try reflexivity.
  destruct (too_long text0); cbn; answer_cases; try reflexivity.
  all: match goal with |- context [choices ?x] => destruct (choices x) end.
  all: reflexivity.
Qed.


(** ** Construction *)

(** Without an [LLM] setting (unset or empty) construction completes, logs
    a warning and binds [llm] to [None]. *)
Lemma init_without_model_path (host : Host) (w : World) :
  given (getenv host "LLM") = None ->
  let o := run respond (__init__ host) blank w in
  value o = Returned tt
  /\ self_after o = fresh_tool
  /\ filter is_warning (trace o) <> [].
Proof.
  intros H. unfold __init__. cbn. rewrite H. cbn.
  repeat split. discriminate.
Qed.

(** When the model file exists but loading it raises, construction
    completes and binds [llm] to [None]. *)
Lemma init_load_failure (host : Host) (w : World) model_path e :
  given (getenv host "LLM") = Some model_path ->
  path_exists host (strip is_quote model_path) = true ->
  fst (respond _ (Llama_new (strip is_quote model_path) 2048 4) w) = Raised e ->
  let o := run respond (__init__ host) blank w in
  value o = Returned tt /\ self_after o = fresh_tool.
Proof.
  intros H1 H2 H3. unfold __init__. cbn. rewrite H1. cbn. rewrite H2. cbn.
  rewrite H3. cbn. repeat split.
Qed.

(** When the [LLM] setting names a file that does not exist, construction
    completes, but neither branch that assigns [llm] is taken and nothing
    is logged: the attribute stays unassigned, and [summarize] raises
    [AttributeError] where it reads it. *)
Lemma init_missing_model_file (host : Host) (w : World) model_path :
  given (getenv host "LLM") = Some model_path ->
  path_exists host (strip is_quote model_path) = false ->
  let o := run respond (__init__ host) blank w in
  value o = Returned tt
  /\ trace o = []
  /\ llm (self_after o) = None
  /\ forall text0 max_tokens w',
       value (run respond (summarize text0 max_tokens) (self_after o) w')
       = Raised no_attribute_llm.
Proof.
  intros H1 H2. unfold __init__. cbn. rewrite H1. cbn. rewrite H2. cbn.
  repeat split.
Qed.


(** ** Programs that leave the object alone *)

Lemma read_only_frame {A} (p : prog A) :
  read_only p -> forall self w, self_after (run respond p self w) = self.
Proof.
  induction p as [a | e | T c k IH | k IH | s k IH | l m k IH];
    cbn; intros H self w; auto.
  contradiction.
Qed.

Lemma read_only_bind {A B} (p : prog A) (f : A -> prog B) :
  read_only p -> (forall a, read_only (f a)) -> read_only (bind p f).
Proof.
  induction p as [a | e | T c k IH | k IH | s k IH | l m k IH];
    cbn; intros H F; auto.
Qed.

Lemma read_only_try_except {A} (p : prog A) handler :
  read_only p -> (forall e, read_only (handler e)) ->
  read_only (try_except p handler).
Proof.
  induction p as [a | e | T c k IH | k IH | s k IH | l m k IH];
    cbn; intros H F; auto.
Qed.

Lemma read_only_lift {A} (r : result A) : read_only (lift r).
Proof. destruct r; exact I. Qed.

Lemma read_only_attr_of {H} (o : option H) name : read_only (attr_of o name).
Proof. destruct o; exact I. Qed.

Lemma read_only_await {T} (c : call T) : read_only (await c).
Proof. intros [v | e]; exact I. Qed.

Create HintDb frame.
#[local] Hint Resolve read_only_lift read_only_attr_of read_only_await : frame.

Lemma read_only_collect host items results :
  read_only (collect host items results).
Proof.
  revert results. induction items as [| item items IH]; intros results; cbn.
  - exact I.
  - repeat (apply read_only_bind; [solve [auto with frame] | intros ?]).
    destruct (truthy _ && truthy _); auto.
    repeat (apply read_only_bind; [solve [auto with frame] | intros ?]).
    apply IH.
Qed.

Lemma read_only_search_attempt host search_url max_results :
  read_only (search_attempt host search_url max_results).
Proof.
  unfold search_attempt.
  apply read_only_bind; [intros ?; exact I | intros self].
  repeat (apply read_only_bind; [solve [auto with frame] | intros ?]).
  apply read_only_bind.
  - match goal with |- read_only (match ?r with _ => _ end) => destruct r as [resp |] end;
      [| exact I].
    destruct (status resp =? 200); [| exact I].
    apply read_only_bind; [intros ?; exact I | intros ?].
    repeat (apply read_only_bind; [solve [auto with frame] | intros ?]).
    destruct (soup_find_pre host _); [| exact I].
    repeat (apply read_only_bind; [solve [auto with frame] | intros ?]).
    apply read_only_bind; [apply read_only_collect | intros ?].
    exact I.
  - intros [results |]; exact I.
Qed.

(** ** Web search *)

(** [web_search] is initialization followed by the guarded attempt: the
    fault of the first propagates, a fault of the second becomes the empty
    list. *)
Lemma web_search_value host self w query max_results :
  let s := run respond _setup_browser self w in
  let attempt search_url :=
    run respond (search_attempt host search_url max_results)
      (self_after s) (world_after s) in
  let o := run respond (web_search host query max_results) self w in
  value o = match value s with
            | Raised e => Raised e
            | Returned _ =>
                match search_url_of host query with
                | Raised e => Raised e
                | Returned search_url =>
                    match value (attempt search_url) with
                    | Returned results => Returned results
                    | Raised _ => Returned []
                    end
                end
            end
  /\ self_after o = self_after s.
Proof.
  cbn zeta. unfold web_search. rewrite run_bind. unfold and_then.
  generalize (run respond _setup_browser self w). intros s.
  destruct (value s) as [[] | e]; [| split; reflexivity].
  destruct (search_url_of host query) as [search_url | e];
    [| split; reflexivity].
  cbn -[search_attempt].
  rewrite run_try_except. unfold or_else.
  pose proof (read_only_frame _
                (read_only_search_attempt host search_url max_results)
                (self_after s) (world_after s)) as F.
  destruct (value (run respond (search_attempt host search_url
                                  max_results) (self_after s) (world_after s)))
    eqn:E; cbn -[search_attempt]; rewrite ?E; split; auto.
Qed.

Lemma search_failure_value host self w search_url max_results :
  search_failure respond host self w search_url max_results ->
  match value (run respond (search_attempt host search_url max_results) self w) with
  | Returned results => results = []
  | Raised _ => True
  end.
Proof.
  intros [e H | p Hp H | p resp Hp H S | p resp html Hp H S C F
          | p resp html json_text d Hp H S C F J L].
  - rewrite H. exact I.
  - destruct self as [pw b pg i l]; cbn in Hp; subst pg.
    cbn. rewrite H. reflexivity.
  - destruct self as [pw b pg i l]; cbn in Hp; subst pg.
    cbn. rewrite H. cbn.
    apply Z.eqb_neq in S. rewrite S. reflexivity.
  - destruct self as [pw b pg i l]; cbn in Hp; subst pg.
    cbn. rewrite H. cbn. rewrite S. cbn. rewrite C. cbn. rewrite F. reflexivity.
  - destruct self as [pw b pg i l]; cbn in Hp; subst pg.
    cbn. rewrite H. cbn. rewrite S. cbn. rewrite C. cbn. rewrite F. cbn.
    rewrite J. cbn. rewrite L. cbn.
    unfold list_prefix. rewrite firstn_nil. reflexivity.
Qed.

(** The URL is built when the query encodes, and only then. *)
Lemma search_url_of_raised host query e :
  search_url_of host query = Raised e <-> quote_plus host query = Raised e.
Proof.
  unfold search_url_of. destruct (quote_plus host query); split; congruence.
Qed.


(** One turn of the loop on a JSON object. *)
Lemma collect_dict host d items results :
  collect host (JDict d :: items) results
  = if kept (JDict d) then
      bind (lift (py_slice_to (field (JDict d) "title") 50))
        (fun shown =>
           bind (log INFO ("Found result: " ++ py_format host shown ++ "..."))
             (fun _ => collect host items (results ++ [result_of (JDict d)])))
    else collect host items results.
Proof. reflexivity. Qed.

(** The loop over well-formed entries appends the kept ones, in order. *)
Lemma collect_well_formed host items : forall results self w,
  forallb well_formed items = true ->
  value (run respond (collect host items results) self w)
  = Returned (results ++ map result_of (filter kept items)).
Proof.
  induction items as [| item items IH]; intros results self w W.
  - cbn. now rewrite app_nil_r.
  - cbn [forallb] in W. apply andb_true_iff in W as [Wi W].
    destruct item as [| | | | | | d]; try discriminate Wi.
    rewrite collect_dict. cbn [filter].
    unfold well_formed in Wi.
    destruct (kept (JDict d)) eqn:K.
    + destruct (field (JDict d) "title") eqn:T; try discriminate Wi;
        cbn [py_slice_to lift bind log run value]; rewrite IH by assumption;
        rewrite <- app_assoc; reflexivity.
    + apply IH. assumption.
Qed.

Lemma list_prefix_firstn {A} (l : list A) (stop : Z) :
  0 <= stop -> list_prefix l stop = firstn (Z.to_nat stop) l.
Proof.
  intros H. unfold list_prefix, slice_stop.
  destruct (stop <? 0) eqn:N; [apply Z.ltb_lt in N; lia |].
  destruct (Nat.le_ge_cases (Z.to_nat stop) (List.length l)) as [L | L].
  - now rewrite Nat.min_l.
  - rewrite Nat.min_r by assumption. rewrite firstn_all.
    symmetry. now apply firstn_all2.
Qed.

(** C6 (as amended). On a 200 response whose preformatted block parses
    to a JSON object with a [results] array, [web_search] considers the
    entries that the slice up to [max_results] selects (the first
    [max_results] of them when that number is not negative) and, when each
    of these is well formed (a JSON object, the title of a kept one being a
    string), returns in their order the kept ones, each as title, url and
    snippet taken from title, url and content. *)
Theorem web_search_maps_results host self w query max_results
    url p resp html json_text d entries :
  let s := run respond _setup_browser self w in
  let loaded := respond _ (page_goto p url networkidle None) (world_after s) in
  search_url_of host query = Returned url ->
  value s = Returned tt ->
  page (self_after s) = Some p ->
  fst loaded = Returned (Some resp) ->
  status resp = 200 ->
  fst (respond _ (page_content p) (snd loaded)) = Returned html ->
  soup_find_pre host html = Some json_text ->
  json_loads host json_text = Returned (JDict d) ->
  lookup "results" d = Some (JList entries) ->
  forallb well_formed (list_prefix entries max_results) = true ->
  value (run respond (web_search host query max_results) self w)
  = Returned (map result_of (filter kept (list_prefix entries max_results)))
  /\ (0 <= max_results ->
      list_prefix entries max_results = firstn (Z.to_nat max_results) entries).
Proof.
  cbn zeta. intros U S P G St C F J L W.
  split; [| apply list_prefix_firstn].
  destruct (web_search_value host self w query max_results) as [V _].
  cbn zeta in V. rewrite V, S, U. clear V S U.
  revert P G C.
  generalize (run respond _setup_browser self w) as s.
  intros [v [pw b pg i l] w1 tr] P G C. cbn in P, G, C. subst pg.
  unfold search_attempt.
  cbn. rewrite G. cbn. rewrite St. cbn. rewrite C. cbn. rewrite F. cbn.
  rewrite J. cbn. rewrite L. cbn.
  rewrite !run_bind. unfold and_then.
  rewrite collect_well_formed by assumption. reflexivity.
Qed.

(** ** Navigation *)

(** Initialization logs no warning. *)
Lemma setup_browser_no_warning (self : BrowserTool) (w : World) :
  existsb is_warning (trace (run respond _setup_browser self w)) = false.
Proof.
  handle_cases self; destruct i; cbn; answer_cases; reflexivity.
Qed.

(** C8. [navigate] raises exactly when [navigation_fault] holds:
    initialization failed or left no page, the load raised (an underlying
    error) or yielded no response, or a selector was requested and the wait
    for it failed.  The status of the response decides nothing but a
    warning in the log: a response with status 400 or more, with no other
    fault, lets [navigate] return. *)
Theorem navigate_raises_iff (self : BrowserTool) (w : World) url
    wait_for_element wait_time :
  let o := run respond (navigate url wait_for_element wait_time) self w in
  is_raised (value o) = navigation_fault respond self w url wait_for_element wait_time
  /\ forall p resp,
       let s := run respond _setup_browser self w in
       value s = Returned tt ->
       page (self_after s) = Some p ->
       fst (respond _ (page_goto p url domcontentloaded (Some 30000)) (world_after s))
       = Returned (Some resp) ->
       existsb is_warning (trace o) = (400 <=? status resp)
       /\ (given wait_for_element = None -> value o = Returned tt).
Proof.
  cbn zeta. unfold navigation_fault, navigate.
  rewrite run_bind. unfold and_then.
  pose proof (setup_browser_no_warning self w) as NW. revert NW.
  generalize (run respond _setup_browser self w) as s.
  intros [v [pw b pg i l] w1 tr] NW. cbn in NW.
  destruct v as [[] | e]; cbn;
    [| split; [reflexivity | intros; discriminate]].
  destruct pg as [p |]; cbn;
    [| split; [reflexivity | intros; discriminate]].
  destruct (respond _ (page_goto p url domcontentloaded (Some 30000)) w1)
    as [[[resp |] | e] w2] eqn:G; cbn;
    try (split; [reflexivity
                | intros p0 resp0 _ Hp Hr; injection Hp as <-;
                  rewrite G in Hr; discriminate Hr]).
  destruct (given wait_for_element) as [selector |]; cbn.
  - destruct (400 <=? status resp) eqn:St; cbn;
      destruct (respond _ (wait_for_selector p selector (wait_time * 1000)) w2)
        as [[[] | e] w3]; cbn;
      (split; [reflexivity |]);
      intros p0 resp0 _ Hp Hr; injection Hp as <-;
      rewrite G in Hr; injection Hr as <-;
      (split; [| intros; discriminate]);
      rewrite existsb_app, NW; cbn; rewrite ?St; reflexivity.
  - destruct (400 <=? status resp) eqn:St; cbn;
      (split; [reflexivity |]);
      intros p0 resp0 _ Hp Hr; injection Hp as <-;
      rewrite G in Hr; injection Hr as <-;
      (split; [| reflexivity]);
      rewrite existsb_app, NW; cbn; rewrite ?St; reflexivity.
Qed.

(** ** The session invariant *)

Lemma preserves_bind {A B} P (p : prog A) (f : A -> prog B) :
  preserves respond P p -> (forall a, preserves respond P (f a)) ->
  preserves respond P (bind p f).
Proof.
  intros Hp Hf self w H. rewrite run_bind. unfold and_then.
  specialize (Hp self w H).
  destruct (value (run respond p self w)); cbn; auto.
  apply Hf. assumption.
Qed.

Lemma preserves_read_only {A} P (p : prog A) :
  read_only p -> preserves respond P p.
Proof.
  intros R self w H. now rewrite read_only_frame.
Qed.

Ltac read_only_step :=
  first
    [ exact I
    | apply read_only_lift
    | apply read_only_attr_of
    | apply read_only_await
    | apply read_only_collect
    | apply read_only_bind
    | apply read_only_try_except
    | match goal with
      | |- read_only (match ?x with _ => _ end) => destruct x
      end
    | intros ? ].

(** What [navigate] does after initialization assigns no attribute. *)
Lemma navigate_after_setup url wait_for_element wait_time :
  exists body : prog unit,
    navigate url wait_for_element wait_time = bind _setup_browser (fun _ => body)
    /\ read_only body.
Proof.
  eexists. split; [reflexivity |].
  repeat read_only_step.
Qed.

Lemma close_leaves_empty (self : BrowserTool) (w : World) :
  let o := run respond close self w in
  page (self_after o) = None /\ browser (self_after o) = None
  /\ playwright (self_after o) = None.
Proof.
  handle_cases self; cbn; answer_cases; repeat split.
Qed.

Lemma setup_browser_preserves_order : preserves respond ordered _setup_browser.
Proof.
  intros self w H. unfold ordered in *.
  handle_cases self; destruct i; cbn in H; try discriminate H; cbn;
    answer_cases; reflexivity.
Qed.

Lemma close_preserves_order : preserves respond ordered close.
Proof.
  intros self w _. unfold ordered, handles_ordered.
  destruct (close_leaves_empty self w) as (P & B & D).
  now rewrite P, B, D.
Qed.

Lemma navigate_preserves_order url wait_for_element wait_time :
  preserves respond ordered (navigate url wait_for_element wait_time).
Proof.
  destruct (navigate_after_setup url wait_for_element wait_time) as (body & -> & R).
  apply preserves_bind.
  - apply setup_browser_preserves_order.
  - intros _. now apply preserves_read_only.
Qed.

Lemma web_search_preserves_order host query max_results :
  preserves respond ordered (web_search host query max_results).
Proof.
  intros self w H. unfold ordered.
  destruct (web_search_value host self w query max_results) as [_ F].
  cbn zeta in F. rewrite F. now apply setup_browser_preserves_order.
Qed.

Lemma extract_content_preserves_order host url wait_for_element :
  preserves respond ordered (extract_content host url wait_for_element).
Proof.
  unfold extract_content.
  apply preserves_bind; [apply setup_browser_preserves_order | intros _].
  apply preserves_bind.
  - destruct (given url).
    + apply navigate_preserves_order.
    + apply preserves_read_only. exact I.
  - intros _. apply preserves_read_only. repeat read_only_step.
Qed.

Lemma perform_preserves_order host op :
  preserves respond ordered (perform host op).
Proof.
  destruct op; cbn [perform].
  - apply setup_browser_preserves_order.
  - apply preserves_bind; [apply web_search_preserves_order |].
    intros _. now apply preserves_read_only.
  - apply navigate_preserves_order.
  - apply preserves_bind; [apply extract_content_preserves_order |].
    intros _. now apply preserves_read_only.
  - intros self w H. rewrite run_bind. unfold and_then.
    pose proof (summarize_frame self w text0 max_tokens) as F.
    destruct (value (run respond (summarize text0 max_tokens) self w));
      cbn -[summarize]; now rewrite F.
  - apply close_preserves_order.
Qed.

(** ** Content extraction *)


End Sequential.

(** ** Concurrent initialization *)

(** A call that finds the flag set returns before its first await, having
    touched nothing. *)
Lemma setup_browser_reentrant (self : BrowserTool) :
  _initializing self = true ->
  advance _setup_browser self = (Done (Returned tt), self).
Proof.
  destruct self as [pw b p i l]; cbn; intros ->; reflexivity.
Qed.

Ltac resume_cases :=
  repeat first
    [ progress cbn
    | match goal with
      | |- _ /\ _ => split
      | |- forall r : result _, _ => intros [? | ?]
      | |- _ -> _ => intros ?
      | H : ?x <> ?x |- _ => now elim H
      | H : Some _ = None |- _ => discriminate H
      | H : None = Some _ |- _ => discriminate H
      | H : true = false |- _ => discriminate H
      | H : false = true |- _ => discriminate H
      | H : [] <> [] |- _ => now elim H
      | |- Some _ <> None => discriminate
      | |- ?x = ?x => reflexivity
      end ].

(** A call that finds the flag clear leaves the process handle as it is
    until its first await, and is then a coroutine as [task_ok]
    describes. *)
Lemma setup_browser_enters (self : BrowserTool) :
  _initializing self = false ->
  let seg := advance _setup_browser self in
  browser (snd seg) = browser self
  /\ task_ok 5 (fst seg) (snd seg).
Proof.
  handle_cases self; cbn; intros ->; resume_cases.
Qed.

Lemma finished_not_blocked {A} (l : list (task A)) :
  Forall finished l -> filter is_blocked l = [].
Proof.
  induction 1 as [| t l H _ IH]; cbn; [reflexivity |].
  unfold finished in H. now rewrite H.
Qed.

Lemma finished_not_launching {A} (l : list (task A)) :
  Forall finished l -> existsb launching l = false.
Proof.
  induction 1 as [| t l H _ IH]; cbn; [reflexivity |].
  destruct t; [exact IH | discriminate H].
Qed.

(** The one suspended coroutine among finished ones is found in one
    place only. *)
Lemma blocked_position {A} (l1 l2 l1' l2' : list (task A)) t t' :
  l1 ++ t :: l2 = l1' ++ t' :: l2' ->
  Forall finished l1 -> Forall finished l2 ->
  is_blocked t' = true ->
  l1 = l1' /\ t = t' /\ l2 = l2'.
Proof.
  revert l1'. induction l1 as [| a l1 IH]; intros [| a' l1'] E F1 F2 B; cbn in E.
  - injection E as -> ->. auto.
  - injection E as -> ->. exfalso.
    apply Forall_app in F2 as [_ F2]. inversion F2 as [| ? ? Ft _]; subst.
    unfold finished in Ft. congruence.
  - injection E as -> _. exfalso.
    inversion F1 as [| ? ? Fa _]; subst. unfold finished in Fa. congruence.
  - injection E as -> E. inversion F1 as [| ? ? Fa F1']; subst.
    destruct (IH l1' E F1' F2 B) as (-> & -> & ->). auto.
Qed.

(** What [task_ok] says of a suspended coroutine. *)
Lemma task_ok_blocked n {T} (c : call T) k self :
  task_ok n (Blocked c k) self ->
  _initializing self = true
  /\ (is_launch c = true -> browser self = None)
  /\ exists n', forall r,
        let seg := advance (k r) self in
        (browser self <> None -> browser (snd seg) <> None)
        /\ (launched c r <> [] -> browser (snd seg) <> None)
        /\ task_ok n' (fst seg) (snd seg).
Proof.
  destruct n as [| n']; cbn; intros (I & _ & NL & K); [contradiction |].
  split; [exact I |]. split; [exact NL |]. exists n'. exact K.
Qed.

Lemma task_ok_done n (r : result unit) self :
  task_ok n (Done r) self -> _initializing self = false.
Proof. destruct n; exact (fun H => H). Qed.

Lemma pool_inv_start (self0 : BrowserTool) :
  _initializing self0 = false -> pool_inv (start self0).
Proof.
  intros H. unfold pool_inv, start. cbn [shared tasks handles].
  split; [cbn; lia |]. split; [intros C; now elim C |].
  left. split; [exact H | constructor].
Qed.

Lemma pool_inv_enter (P : pool) : pool_inv P -> pool_inv (enter P).
Proof.
  intros (L & HB & [[I F] | (l1 & t & l2 & n & E & F1 & F2 & B & K)]).
  - destruct (setup_browser_enters (shared P) I) as [EB K].
    cbn zeta in EB, K. unfold pool_inv, enter. cbn [shared tasks handles].
    split; [exact L |]. split; [rewrite EB; exact HB |].
    destruct (fst (advance _setup_browser (shared P))) as [r | T c k] eqn:S.
    + left. split; [exact K |].
      apply Forall_app. split; [exact F |]. now repeat constructor.
    + right. exists (tasks P), (Blocked c k), [], 5%nat.
      split; [reflexivity |]. split; [exact F |]. split; [constructor |].
      split; [reflexivity | exact K].
  - assert (I : _initializing (shared P) = true).
    { destruct t as [r | T c k]; [discriminate B |].
      now apply task_ok_blocked in K. }
    unfold pool_inv, enter. rewrite (setup_browser_reentrant _ I).
    cbn [fst snd shared tasks handles].
    split; [exact L |]. split; [exact HB |].
    right. exists l1, t, (l2 ++ [Done (Returned tt)]), n.
    split; [rewrite E, <- app_assoc; reflexivity |].
    split; [exact F1 |].
    split; [apply Forall_app; split; [exact F2 | now repeat constructor] |].
    split; [exact B | exact K].
Qed.

Lemma pool_inv_resume (P : pool) l1 l2 {T} (c : call T) k (r : result T) :
  tasks P = l1 ++ Blocked c k :: l2 ->
  pool_inv P -> pool_inv (resume P l1 l2 c k r).
Proof.
  intros E (L & HB & [[I F] | (m1 & t & m2 & n & E' & F1 & F2 & B & K)]).
  - exfalso. rewrite E in F. apply Forall_app in F as [_ F].
    inversion F as [| ? ? Ft _]; subst. discriminate Ft.
  - rewrite E in E'. symmetry in E'.
    destruct (blocked_position _ _ _ _ _ _ E' F1 F2 eq_refl) as (-> & -> & ->).
    apply task_ok_blocked in K. destruct K as (I & NL & n' & K).
    specialize (K r). cbn zeta in K. destruct K as (Keep & Store & K).
    unfold pool_inv, resume. cbn [shared tasks handles].
    assert (LH : launched c r <> [] -> handles P = []).
    { intros N. destruct (handles P) as [| h hs] eqn:EH; [reflexivity |].
      exfalso. apply HB; [discriminate |]. apply NL.
      destruct c; try reflexivity; now elim N. }
    assert (LL : (List.length (launched c r) <= 1)%nat).
    { destruct c; cbn; try lia. destruct r; cbn; lia. }
    split; [| split].
    + destruct (launched c r) as [| b bs] eqn:EL.
      * now rewrite app_nil_r.
      * rewrite LH by discriminate. exact LL.
    + intros N. destruct (launched c r) as [| b bs] eqn:EL.
      * rewrite app_nil_r in N. auto.
      * apply Store. discriminate.
    + destruct (fst (advance (k r) (shared P))) as [r' | T' c' k'] eqn:S.
      * left. split; [exact (task_ok_done _ _ _ K) |].
        apply Forall_app. split; [exact F1 |]. constructor; [reflexivity | exact F2].
      * right. exists l1, (Blocked c' k'), l2, n'.
        split; [reflexivity |]. split; [exact F1 |]. split; [exact F2 |].
        split; [reflexivity | exact K].
Qed.

Lemma pool_inv_reachable (self0 : BrowserTool) (P : pool) :
  _initializing self0 = false -> reachable self0 P -> pool_inv P.
Proof.
  intros H R. induction R as [| P Q _ IH S].
  - now apply pool_inv_start.
  - destruct S as [P | P l1 l2 T c k r E].
    + now apply pool_inv_enter.
    + now apply pool_inv_resume.
Qed.

(** C7. On an object whose in-progress flag starts clear, whatever calls
    of [_setup_browser] enter and however the event loop interleaves them
    with the outcomes of their awaits: at most one call is ever suspended
    inside initialization; at most one process handle is ever delivered;
    a launch is pending only while no handle exists; and a call that
    enters while the flag is set, which is whenever another one is in
    flight, returns before any await, so it launches nothing. *)
Theorem at_most_one_launch (self0 : BrowserTool) (P : pool) :
  _initializing self0 = false ->
  reachable self0 P ->
  (in_flight P <= 1)%nat
  /\ (List.length (handles P) <= 1)%nat
  /\ (existsb launching (tasks P) = true ->
      handles P = [] /\ browser (shared P) = None)
  /\ (in_flight P = 1%nat <-> _initializing (shared P) = true)
  /\ (_initializing (shared P) = true ->
      advance _setup_browser (shared P) = (Done (Returned tt), shared P)
      /\ handles (enter P) = handles P
      /\ in_flight (enter P) = in_flight P).
Proof.
  intros H R. pose proof (pool_inv_reachable self0 P H R) as Inv.
  destruct Inv as (L & HB & [[I F] | (l1 & t & l2 & n & E & F1 & F2 & B & K)]).
  - unfold in_flight. rewrite (finished_not_blocked _ F).
    rewrite (finished_not_launching _ F). cbn.
    repeat split; try lia; try discriminate; try congruence.
  - assert (I : _initializing (shared P) = true).
    { destruct t as [r | T c k]; [discriminate B |].
      now apply task_ok_blocked in K. }
    assert (N : in_flight P = 1%nat).
    { unfold in_flight. rewrite E, filter_app. cbn. rewrite B.
      rewrite (finished_not_blocked _ F1), (finished_not_blocked _ F2).
      reflexivity. }
    split; [lia |]. split; [exact L |]. split; [| split; [tauto |]].
    + rewrite E, existsb_app. cbn.
      rewrite (finished_not_launching _ F1), (finished_not_launching _ F2).
      rewrite orb_false_r. cbn. intros La.
      destruct t as [r | T c k]; [discriminate B |].
      cbn in La. apply task_ok_blocked in K. destruct K as (_ & NL & _).
      specialize (NL La).
      split; [| exact NL].
      destruct (handles P); [reflexivity |].
      exfalso. apply HB; [discriminate | exact NL].
    + intros _. pose proof (setup_browser_reentrant _ I) as Re.
      split; [exact Re |]. unfold enter. rewrite Re. cbn [fst snd handles].
      split; [reflexivity |].
      unfold in_flight. cbn [tasks]. rewrite filter_app. cbn.
      now rewrite app_nil_r.
Qed.

(** ** Sessions in which no caller closes *)

Lemma advance_bind {A B} (p : prog A) (f : A -> prog B) (self : BrowserTool) :
  advance (bind p f) self
  = match fst (advance p self) with
    | Done (Returned a) => advance (f a) (snd (advance p self))
    | Done (Raised e) => (Done (Raised e), snd (advance p self))
    | Blocked c k => (Blocked c (fun r => bind (k r) f), snd (advance p self))
    end.
Proof.
  revert self.
  induction p as [a | e | T c k IH | k IH | s k IH | l m k IH];
    intros self; cbn; auto.
Qed.

Lemma calm_read_only {A} (p : prog A) (self : BrowserTool) :
  read_only p -> calm p self.
Proof.
  unfold calm. revert self.
  induction p as [a | e | T c k IH | k IH | s k IH | l m k IH];
    cbn; intros self R; auto.
  contradiction.
Qed.

(** A calm program stays calm when followed by one that assigns
    nothing. *)
Lemma calm_then {A B} (p : prog A) (f : A -> prog B) (self : BrowserTool) :
  calm p self -> (forall a, read_only (f a)) -> calm (bind p f) self.
Proof.
  unfold calm. intros [S Q] R. rewrite advance_bind.
  destruct (fst (advance p self)) as [[a | e] | T c k]; rewrite S.
  - now apply calm_read_only.
  - split; [reflexivity | exact I].
  - split; [reflexivity |]. intros r. apply read_only_bind; auto.
Qed.

(** After an initialization that had nothing to do. *)
Lemma calm_after {B} (rest : unit -> prog B) (self : BrowserTool) :
  advance _setup_browser self = (Done (Returned tt), self) ->
  calm (rest tt) self -> calm (bind _setup_browser rest) self.
Proof.
  unfold calm. intros N C. rewrite advance_bind, N. exact C.
Qed.

Lemma ready_nothing_to_do (self : BrowserTool) :
  ready self -> advance _setup_browser self = (Done (Returned tt), self).
Proof.
  unfold ready. destruct self as [[pw |] [b |] [p |] i l]; cbn;
    intros (-> & D & B & P); try (now elim D); try (now elim B);
    try (now elim P).
  reflexivity.
Qed.

Ltac initializing_cases :=
  repeat first
    [ progress cbn
    | match goal with
      | |- _ /\ _ => split
      | |- forall r : result _, _ => intros [? | ?]
      | |- ?x = ?x => reflexivity
      | |- Some _ <> None => discriminate
      | |- ready _ => unfold ready
      end ].

(** Entered on ordered handles with the flag clear, initialization keeps
    them ordered at every await. *)
Lemma setup_browser_initializing (self : BrowserTool) :
  handles_ordered self = true -> _initializing self = false ->
  let seg := advance _setup_browser self in
  handles_ordered (snd seg) = true /\ initializing 5 (fst seg) (snd seg).
Proof.
  handle_cases self; cbn; intros O ->; try discriminate O;
    initializing_cases.
Qed.

Lemma initializing_returned (n : nat) (self : BrowserTool) :
  initializing n (Done (Returned tt)) self -> ready self.
Proof. destruct n; exact (fun H => H). Qed.

Lemma initializing_raised (n : nat) e (self : BrowserTool) :
  initializing n (Done (Raised e)) self -> _initializing self = false.
Proof. destruct n; exact (fun H => H). Qed.

Lemma initializing_blocked (n : nat) {T} (c : call T) k (self : BrowserTool) :
  initializing n (Blocked c k) self -> _initializing self = true.
Proof. destruct n; intros [H _]; exact H. Qed.

Lemma holder_done {A} (n : nat) (r : result A) (self : BrowserTool) :
  holder n (Done r) self -> False.
Proof. destruct n; exact (fun H => H). Qed.

(** The holder of the flag, followed by a program that is calm on a ready
    object. *)
Lemma holder_after_setup {B} (rest : unit -> prog B) (n : nat) :
  (forall s, ready s -> calm (rest tt) s) ->
  forall {T} (c : call T) k self,
    initializing n (Blocked c k) self ->
    holder n (Blocked c (fun r => bind (k r) rest)) self.
Proof.
  intros C. induction n as [| n IH]; intros T c k self [F H]; [contradiction |].
  cbn [holder]. intros r. cbn zeta. rewrite advance_bind.
  destruct (H r) as [O K]. cbn zeta in O, K.
  destruct (fst (advance (k r) self)) as [[[] | e] | T' c' k'].
  - apply initializing_returned in K. destruct (C _ K) as [S Q]. rewrite S.
    split; [exact O |]. destruct K as [-> _]. exact Q.
  - apply initializing_raised in K. cbn [fst snd]. rewrite K.
    split; [exact O | exact I].
  - cbn [fst snd]. split; [exact O |].
    rewrite (initializing_blocked _ _ _ _ K). now apply IH.
Qed.

(** The holder of the flag in [_setup_browser] itself. *)
Lemma holder_of_initializing (n : nat) : forall {T} (c : call T) k self,
  initializing n (Blocked c k) self -> holder n (Blocked c k) self.
Proof.
  induction n as [| n IH]; intros T c k self [F H]; [contradiction |].
  cbn [holder]. intros r. cbn zeta.
  destruct (H r) as [O K]. cbn zeta in O, K. split; [exact O |].
  destruct (fst (advance (k r) self)) as [[[] | e] | T' c' k'].
  - apply initializing_returned in K. destruct K as [-> _]. exact I.
  - apply initializing_raised in K. rewrite K. exact I.
  - rewrite (initializing_blocked _ _ _ _ K). now apply IH.
Qed.

(** The holder of the flag, followed by a program that assigns nothing. *)
Lemma holder_then {A B} (g : A -> prog B) (n : nat) :
  (forall a, read_only (g a)) ->
  forall {T} (c : call T) (k : result T -> prog A) self,
    holder n (Blocked c k) self ->
    holder n (Blocked c (fun r => bind (k r) g)) self.
Proof.
  intros R. induction n as [| n IH]; intros T c k self H; [contradiction |].
  cbn [holder] in H |- *. intros r. cbn zeta. rewrite advance_bind.
  destruct (H r) as [O K]. cbn zeta in O, K.
  destruct (fst (advance (k r) self)) as [[a | e] | T' c' k'].
  - destruct (_initializing (snd (advance (k r) self))) eqn:F;
      [now apply holder_done in K |].
    destruct (calm_read_only (g a) (snd (advance (k r) self)) (R a)) as [S Q].
    rewrite S, F. split; [exact O | exact Q].
  - cbn [fst snd]. split; [exact O |].
    destruct (_initializing (snd (advance (k r) self)));
      [now apply holder_done in K | exact K].
  - cbn [fst snd]. split; [exact O |].
    destruct (_initializing (snd (advance (k r) self))).
    + now apply IH.
    + intros r'. apply read_only_bind; auto.
Qed.

(** Entering an operation that begins with initialization. *)
Lemma enters_after_setup {B} (rest : unit -> prog B) (self : BrowserTool) :
  (forall s, advance _setup_browser s = (Done (Returned tt), s) ->
             calm (rest tt) s) ->
  handles_ordered self = true ->
  enters (bind _setup_browser rest) self.
Proof.
  intros C O. split.
  - intros F. apply calm_after.
    + now apply setup_browser_reentrant.
    + apply C. now apply setup_browser_reentrant.
  - intros F. destruct (setup_browser_initializing self O F) as [O' K].
    cbn zeta in O', K. rewrite advance_bind.
    destruct (fst (advance _setup_browser self)) as [[[] | e] | T c k].
    + apply initializing_returned in K.
      destruct (C _ (ready_nothing_to_do _ K)) as [S Q]. rewrite S.
      split; [exact O' |]. destruct K as [-> _]. exact Q.
    + apply initializing_raised in K. cbn [fst snd]. rewrite K.
      split; [exact O' | exact I].
    + cbn [fst snd]. split; [exact O' |].
      rewrite (initializing_blocked _ _ _ _ K).
      apply holder_after_setup; [| exact K].
      intros s R. apply C. now apply ready_nothing_to_do.
Qed.

Lemma enters_then {A B} (p : prog A) (g : A -> prog B) (self : BrowserTool) :
  enters p self -> (forall a, read_only (g a)) -> enters (bind p g) self.
Proof.
  intros [Busy Clear] R. split.
  - intros F. apply calm_then; [now apply Busy | exact R].
  - intros F. destruct (Clear F) as [O K]. rewrite advance_bind.
    destruct (fst (advance p self)) as [[a | e] | T c k].
    + destruct (_initializing (snd (advance p self))) eqn:F';
        [now apply holder_done in K |].
      destruct (calm_read_only (g a) (snd (advance p self)) (R a)) as [S Q].
      rewrite S, F'. split; [exact O | exact Q].
    + cbn [fst snd]. split; [exact O |].
      destruct (_initializing (snd (advance p self)));
        [now apply holder_done in K | exact K].
    + cbn [fst snd]. split; [exact O |].
      destruct (_initializing (snd (advance p self))).
      * now apply holder_then.
      * intros r. apply read_only_bind; auto.
Qed.

Lemma enters_setup_browser (self : BrowserTool) :
  handles_ordered self = true -> enters _setup_browser self.
Proof.
  intros O. split.
  - intros F. rewrite (setup_browser_reentrant self F). split; [reflexivity | exact I].
  - intros F. destruct (setup_browser_initializing self O F) as [O' K].
    cbn zeta in O', K. split; [exact O' |].
    destruct (fst (advance _setup_browser self)) as [[[] | e] | T c k].
    + apply initializing_returned in K. destruct K as [-> _]. exact I.
    + apply initializing_raised in K. rewrite K. exact I.
    + rewrite (initializing_blocked _ _ _ _ K).
      now apply holder_of_initializing.
Qed.

Lemma enters_read_only {A} (p : prog A) (self : BrowserTool) :
  read_only p -> handles_ordered self = true -> enters p self.
Proof.
  intros R O. destruct (calm_read_only p self R) as [S Q]. split.
  - intros _. now split.
  - intros F. rewrite S, F. now split.
Qed.

(** One step in showing that a program assigns no attribute. *)
Ltac quiet_step :=
  first
    [ exact I
    | apply read_only_lift
    | apply read_only_attr_of
    | apply read_only_await
    | apply read_only_collect
    | apply read_only_search_attempt
    | apply read_only_bind
    | apply read_only_try_except
    | match goal with
      | |- read_only (match ?x with _ => _ end) => destruct x
      end
    | intros ? ].

(** Every operation but [close], entered on ordered handles. *)
Lemma perform_enters host (op : operation) (self : BrowserTool) :
  is_close op = false -> handles_ordered self = true ->
  enters (perform host op) self.
Proof.
  intros N O.
  destruct op as [| query max_results | target selector wait_time
                  | target selector | text0 max_tokens |];
    try discriminate N; cbn [perform].
  - now apply enters_setup_browser.
  - apply enters_then; [| intros _; exact I].
    unfold web_search. apply enters_after_setup; [| exact O].
    intros s _. apply calm_read_only. repeat quiet_step.
  - destruct (navigate_after_setup target selector wait_time)
      as (body & -> & R).
    apply enters_after_setup; [| exact O].
    intros s _. now apply calm_read_only.
  - apply enters_then; [| intros _; exact I].
    unfold extract_content. apply enters_after_setup; [| exact O].
    intros s Z. apply calm_then; [| intros _; repeat quiet_step].
    destruct (given target) as [u |]; [| now apply calm_read_only].
    destruct (navigate_after_setup u selector 10) as (body & -> & R).
    apply calm_after; [exact Z | now apply calm_read_only].
  - apply enters_read_only; [| exact O].
    apply read_only_bind; [| intros _; exact I].
    unfold summarize. repeat quiet_step.
Qed.

(** Where two splittings of a list meet. *)
Lemma position_cases {A} (l1 l2 l1' l2' : list A) (t t' : A) :
  l1 ++ t :: l2 = l1' ++ t' :: l2' ->
  (l1 = l1' /\ t = t' /\ l2 = l2')
  \/ (exists m, l1' = l1 ++ t :: m /\ l2 = m ++ t' :: l2')
  \/ (exists m, l1 = l1' ++ t' :: m /\ l2' = m ++ t :: l2).
Proof.
  revert l1'. induction l1 as [| a l1 IH]; intros [| a' l1'] E; cbn in E.
  - injection E as -> ->. now left.
  - injection E as -> ->. right. left. now exists l1'.
  - injection E as -> <-. right. right. now exists l1.
  - injection E as -> E. destruct (IH l1' E) as [(-> & -> & ->) | [[m [-> ->]] | [m [-> ->]]]].
    + now left.
    + right. left. now exists m.
    + right. right. now exists m.
Qed.

Lemma session_inv_start (self0 : BrowserTool) :
  handles_ordered self0 = true -> _initializing self0 = false ->
  session_inv (start self0).
Proof.
  intros O F. split; [exact O |]. left. split; [exact F | constructor].
Qed.

Lemma session_inv_call host (op : operation) (P : pool) :
  is_close op = false -> session_inv P ->
  session_inv (spawn (perform host op) P).
Proof.
  intros N (O & [[F Q] | (F & l1 & t & l2 & n & E & Q1 & Q2 & H)]);
    destruct (perform_enters host op (shared P) N O) as [Busy Clear];
    unfold session_inv, spawn; cbn [shared tasks handles].
  - destruct (Clear F) as [O' K]. split; [exact O' |].
    destruct (_initializing (snd (advance (perform host op) (shared P)))) eqn:F'.
    + right. split; [reflexivity |].
      exists (tasks P), (fst (advance (perform host op) (shared P))), [], 5%nat.
      repeat split; auto.
    + left. split; [reflexivity |]. apply Forall_app. split; [exact Q |].
      constructor; [exact K | constructor].
  - destruct (Busy F) as [S K]. rewrite S. split; [exact O |].
    right. split; [exact F |].
    exists l1, t, (l2 ++ [fst (advance (perform host op) (shared P))]), n.
    split; [rewrite E, <- app_assoc; reflexivity |].
    split; [exact Q1 |]. split; [| exact H].
    apply Forall_app. split; [exact Q2 |]. constructor; [exact K | constructor].
Qed.

Lemma session_inv_resume (P : pool) l1 l2 {T} (c : call T) k (r : result T) :
  tasks P = l1 ++ Blocked c k :: l2 ->
  session_inv P -> session_inv (resume P l1 l2 c k r).
Proof.
  intros E (O & [[F Q] | (F & m1 & t & m2 & n & E' & Q1 & Q2 & H)]);
    unfold session_inv, resume; cbn [shared tasks handles].
  - rewrite E in Q. apply Forall_app in Q as [Ql Q].
    inversion Q as [| ? ? Qt Qr]; subst.
    destruct (calm_read_only (k r) (shared P) (Qt r)) as [S K]. rewrite S.
    split; [exact O |]. left. split; [exact F |].
    apply Forall_app. split; [exact Ql |]. now constructor.
  - rewrite E in E'. symmetry in E'.
    destruct (position_cases _ _ _ _ _ _ E')
      as [(-> & -> & ->) | [[m [-> ->]] | [m [-> ->]]]].
    + destruct n as [| n]; [contradiction |]. cbn [holder] in H.
      destruct (H r) as [O' K]. cbn zeta in O', K. split; [exact O' |].
      destruct (_initializing (snd (advance (k r) (shared P)))) eqn:F'.
      * right. split; [reflexivity |].
        exists l1, (fst (advance (k r) (shared P))), l2, n. repeat split; auto.
      * left. split; [reflexivity |].
        apply Forall_app. split; [exact Q1 |]. now constructor.
    + apply Forall_app in Q2 as [Qm Q2].
      inversion Q2 as [| ? ? Qt Qr]; subst.
      destruct (calm_read_only (k r) (shared P) (Qt r)) as [S K]. rewrite S.
      split; [exact O |]. right. split; [exact F |].
      exists m1, t, (m ++ fst (advance (k r) (shared P)) :: l2), n.
      split; [rewrite <- app_assoc; reflexivity |].
      split; [exact Q1 |]. split; [| exact H].
      apply Forall_app. split; [exact Qm |]. now constructor.
    + apply Forall_app in Q1 as [Ql Q1].
      inversion Q1 as [| ? ? Qt Qr]; subst.
      destruct (calm_read_only (k r) (shared P) (Qt r)) as [S K]. rewrite S.
      split; [exact O |]. right. split; [exact F |].
      exists (l1 ++ fst (advance (k r) (shared P)) :: m), t, m2, n.
      split; [rewrite <- app_assoc; reflexivity |].
      split; [| split; [exact Q2 | exact H]].
      apply Forall_app. split; [exact Ql |]. now constructor.
Qed.

Lemma session_inv_reachable host (self0 : BrowserTool) (P : pool) :
  handles_ordered self0 = true -> _initializing self0 = false ->
  session host false self0 P -> session_inv P.
Proof.
  intros O F R. induction R as [| P Q _ IH S].
  - now apply session_inv_start.
  - destruct S as [P op N | P l1 l2 T c k r E].
    + apply session_inv_call; [| exact IH].
      destruct (is_close op); [discriminate N | reflexivity].
    + now apply session_inv_resume.
Qed.

(** A schedule played is a session. *)
Lemma play_session host {World}
    (respond : forall T : Type, call T -> World -> result T * World)
    (self0 : BrowserTool) (moves : list move) : forall (P : pool) (w : World),
  session host true self0 P ->
  session host true self0 (fst (play host respond moves P w)).
Proof.
  induction moves as [| [op | i] moves IH]; intros P w R; cbn [play].
  - exact R.
  - apply IH. apply session_next with (P := P); [exact R |].
    apply session_call. now destruct (is_close op).
  - destruct (skipn i (tasks P)) as [| [r | T c k] l2] eqn:E;
      try (now apply IH).
    apply IH. apply session_next with (P := P); [exact R |].
    apply session_resume. now rewrite <- E, firstn_skipn.
Qed.

(** C10 (as amended). Every operation ([_setup_browser], [web_search],
    [navigate], [extract_content], [summarize], [close]) run to completion
    before the next begins preserves the ordering of the handles, whatever
    the environment answers and whether the operation returns or raises:
    in the object at every operation boundary of every such sequence of
    calls, a page is never present without the engine process (in which
    its context lives), nor the process without the driver.  Where callers
    overlap, the handles are ordered in every state, boundary or not, of
    every session begun with the flag clear in which no caller closes. *)
Theorem handles_ordered_at_boundaries (World : Type)
    (respond : forall T : Type, call T -> World -> result T * World)
    host (ops : list operation) (self : BrowserTool) (w : World) :
  handles_ordered self = true ->
  forallb handles_ordered (boundaries respond host ops self w) = true
  /\ (_initializing self = false ->
      forall P : pool,
        session host false self P -> handles_ordered (shared P) = true).
Proof.
  intros H. split.
  - revert self w H. induction ops as [| op ops IH]; intros self w H.
    + reflexivity.
    + cbn [boundaries forallb].
      pose proof (perform_preserves_order World respond host op self w H) as H'.
      unfold ordered in H'. rewrite H'. cbn. apply IH. exact H'.
  - intros F P R.
    destruct (session_inv_reachable host self P H F R) as [O _]. exact O.
Qed.

(** * Further properties *)

(** ** Strings *)

Lemma list_ascii_of_string_app (s1 s2 : string) :
  list_ascii_of_string (s1 ++ s2)%string
  = list_ascii_of_string s1 ++ list_ascii_of_string s2.
Proof.
  induction s1 as [| c s1 IH]; cbn; [reflexivity | now rewrite IH].
Qed.

Lemma rev_string_snoc (s : string) (c : ascii) :
  rev_string (s ++ String c "")%string = String c (rev_string s).
Proof.
  unfold rev_string. rewrite list_ascii_of_string_app. cbn.
  rewrite rev_app_distr. reflexivity.
Qed.

(** Stripping on the left of a text that ends in a stripped character. *)
Lemma lstrip_snoc (chars : ascii -> bool) (c : ascii) (s : string) :
  chars c = true ->
  lstrip chars (s ++ String c "")%string
  = match lstrip chars s with
    | EmptyString => EmptyString
    | String a s' => (String a s' ++ String c "")%string
    end.
Proof.
  intros H. induction s as [| a s IH]; cbn.
  - now rewrite H.
  - destruct (chars a); [exact IH | reflexivity].
Qed.

Lemma rstrip_snoc (chars : ascii -> bool) (c : ascii) (s : string) :
  chars c = true ->
  rstrip chars (s ++ String c "")%string = rstrip chars s.
Proof.
  intros H. unfold rstrip. rewrite rev_string_snoc. cbn. now rewrite H.
Qed.

(** [strip] does not see a stripped character put before and after. *)
Lemma strip_wrapped (chars : ascii -> bool) (c1 c2 : ascii) (s : string) :
  chars c1 = true -> chars c2 = true ->
  strip chars (String c1 s ++ String c2 "")%string = strip chars s.
Proof.
  intros H1 H2. unfold strip. cbn [append lstrip]. rewrite H1.
  rewrite lstrip_snoc by assumption.
  destruct (lstrip chars s) as [| a s']; [reflexivity |].
  now apply rstrip_snoc.
Qed.

Lemma length_substring_le (n : nat) : forall s : string,
  (String.length (substring 0 n s) <= n)%nat.
Proof.
  induction n as [| n IH]; intros [| c s]; cbn; try lia.
  specialize (IH s). lia.
Qed.

Lemma length_substring_eq (n : nat) : forall s : string,
  (n <= String.length s)%nat -> String.length (substring 0 n s) = n.
Proof.
  induction n as [| n IH]; intros [| c s] H; cbn in *; try lia.
  rewrite IH; lia.
Qed.

Lemma substring_is_prefix (n : nat) : forall s : string,
  exists rest, s = (substring 0 n s ++ rest)%string.
Proof.
  induction n as [| n IH]; intros [| c s]; cbn.
  - now exists ""%string.
  - now exists (String c s).
  - now exists ""%string.
  - destruct (IH s) as [rest E]. exists rest. now rewrite <- E.
Qed.

Lemma length_append (s1 s2 : string) :
  String.length (s1 ++ s2)%string = (String.length s1 + String.length s2)%nat.
Proof.
  induction s1 as [| c s1 IH]; cbn; [reflexivity | now rewrite IH].
Qed.

(** *** Splitting on whitespace and joining with one space *)

Lemma no_space_rev (l : list ascii) :
  forallb (fun c => negb (isspace c)) l = true ->
  forallb (fun c => negb (isspace c)) (rev l) = true.
Proof.
  rewrite !forallb_forall. intros H c I. apply H. now apply in_rev.
Qed.

Lemma is_word_of_chars (a : ascii) (word : list ascii) :
  forallb (fun c => negb (isspace c)) (a :: word) = true ->
  is_word (string_of_list_ascii (rev (a :: word))) = true.
Proof.
  intros H. unfold is_word.
  rewrite list_ascii_of_string_of_list_ascii, (no_space_rev _ H), andb_true_r.
  cbn [rev]. destruct (rev word); reflexivity.
Qed.

(** What [split] returns are words. *)
Lemma split_words_are_words (cs : list ascii) : forall word,
  forallb (fun c => negb (isspace c)) word = true ->
  forallb is_word (split_words cs word) = true.
Proof.
  induction cs as [| c cs IH]; intros word H; cbn [split_words].
  - destruct word as [| a word]; [reflexivity |].
    cbn [forallb]. now rewrite is_word_of_chars.
  - destruct (isspace c) eqn:S.
    + destruct word as [| a word]; [now apply IH |].
      cbn [forallb]. rewrite is_word_of_chars by assumption. now apply IH.
    + apply IH. cbn [forallb]. now rewrite S.
Qed.

(** Reading the characters of a word. *)
Lemma split_words_word (xs : list ascii) : forall rest word,
  forallb (fun c => negb (isspace c)) xs = true ->
  split_words (xs ++ rest) word = split_words rest (rev xs ++ word).
Proof.
  induction xs as [| x xs IH]; intros rest word H; [reflexivity |].
  cbn [forallb] in H. apply andb_true_iff in H as [Hx H].
  cbn [app split_words rev]. destruct (isspace x); [discriminate Hx |].
  rewrite IH by assumption. now rewrite <- app_assoc.
Qed.

Lemma split_word_then (x : string) (rest : list ascii) :
  is_word x = true ->
  split_words (list_ascii_of_string x ++ rest) []
  = match rest with
    | [] => [x]
    | c :: rest' =>
        if isspace c then x :: split_words rest' []
        else split_words rest (rev (list_ascii_of_string x))
    end.
Proof.
  unfold is_word. intros H. apply andb_true_iff in H as [N H].
  rewrite split_words_word by assumption. rewrite app_nil_r.
  assert (E : string_of_list_ascii (rev (rev (list_ascii_of_string x))) = x)
    by now rewrite rev_involutive, string_of_list_ascii_of_string.
  destruct x as [| a x]; [discriminate N |].
  destruct (rev (list_ascii_of_string (String a x))) as [| b l] eqn:R.
  - apply (f_equal (@rev ascii)) in R. rewrite rev_involutive in R.
    discriminate R.
  - destruct rest as [| c rest']; cbn [split_words].
    + now rewrite E.
    + destruct (isspace c); [now rewrite E | reflexivity].
Qed.

(** Splitting what was joined gives the words back. *)
Lemma split_join (ws : list string) :
  forallb is_word ws = true -> split (join " " ws) = ws.
Proof.
  unfold split, join.
  induction ws as [| x ws IH]; intros H; [reflexivity |].
  cbn [forallb] in H. apply andb_true_iff in H as [Hx H].
  destruct ws as [| y ws].
  - cbn [concat].
    rewrite <- (app_nil_r (list_ascii_of_string x)).
    now rewrite split_word_then.
  - change (concat " " (x :: y :: ws))
      with (x ++ String " " (concat " " (y :: ws)))%string.
    rewrite list_ascii_of_string_app.
    cbn [list_ascii_of_string].
    rewrite split_word_then by assumption.
    change (isspace " ") with true. cbn iota.
    now rewrite IH.
Qed.

(** The words of a text joined by single spaces are a normal form. *)
Lemma normalize_joined_words (text0 : string) :
  normalize (join " " (split text0)) = join " " (split text0).
Proof.
  unfold normalize. f_equal. apply split_join.
  now apply split_words_are_words.
Qed.

(** X1. Normalizing whitespace is idempotent, and what it returns has no
    whitespace but single spaces between words: split again, it gives the
    same words, none of them empty. *)
Theorem normalize_idempotent (text0 : string) :
  normalize (normalize text0) = normalize text0
  /\ split (normalize text0) = split text0
  /\ forallb is_word (split text0) = true.
Proof.
  assert (W : forallb is_word (split text0) = true)
    by now apply split_words_are_words.
  repeat split.
  - apply normalize_joined_words.
  - now apply split_join.
  - exact W.
Qed.

(** ** The calls a program can make *)

Lemma calls_only_bind allowed {A B} (p : prog A) (f : A -> prog B) :
  calls_only allowed p -> (forall a, calls_only allowed (f a)) ->
  calls_only allowed (bind p f).
Proof.
  induction p as [a | e | T c k IH | k IH | s k IH | l m k IH];
    cbn; intros H F; auto.
  destruct H as [H K]. split; auto.
Qed.

Lemma calls_only_try_except allowed {A} (p : prog A) handler :
  calls_only allowed p -> (forall e, calls_only allowed (handler e)) ->
  calls_only allowed (try_except p handler).
Proof.
  induction p as [a | e | T c k IH | k IH | s k IH | l m k IH];
    cbn; intros H F; auto.
  destruct H as [H K]. split; auto.
Qed.

Lemma calls_only_finally allowed {A} (p : prog A) cleanup :
  calls_only allowed p -> calls_only allowed cleanup ->
  calls_only allowed (finally p cleanup).
Proof.
  induction p as [a | e | T c k IH | k IH | s k IH | l m k IH];
    cbn; intros H F; auto.
  - apply calls_only_bind; [assumption | intros _; exact I].
  - apply calls_only_bind; [assumption | intros _; exact I].
  - destruct H as [H K]. split; auto.
Qed.

Lemma calls_only_lift allowed {A} (r : result A) : calls_only allowed (lift r).
Proof. destruct r; exact I. Qed.

Lemma calls_only_attr_of allowed {H} (o : option H) name :
  calls_only allowed (attr_of o name).
Proof. destruct o; exact I. Qed.

Lemma calls_only_await (allowed : forall T : Type, call T -> bool) {T}
    (c : call T) :
  allowed T c = true -> calls_only allowed (await c).
Proof. intros H. split; [exact H | intros [v | e]; exact I]. Qed.

Lemma calls_only_collect allowed host items : forall results,
  calls_only allowed (collect host items results).
Proof.
  induction items as [| item items IH]; intros results; cbn [collect].
  - exact I.
  - repeat (apply calls_only_bind; [apply calls_only_lift | intros ?]).
    destruct (truthy _ && truthy _); [| apply IH].
    apply calls_only_bind; [apply calls_only_lift | intros ?].
    apply calls_only_bind; [exact I | intros ?]. apply IH.
Qed.

(** One step in showing that a program makes only the allowed calls. *)
Ltac calls_step :=
  first
    [ exact I
    | reflexivity
    | match goal with
      | H : forall T c, _ = true -> _ = true |- _ = true => apply H; reflexivity
      end
    | apply calls_only_lift
    | apply calls_only_attr_of
    | apply calls_only_await
    | apply calls_only_collect
    | apply calls_only_bind
    | apply calls_only_try_except
    | apply calls_only_finally
    | match goal with
      | |- calls_only _ (match ?x with _ => _ end) => destruct x
      | |- _ /\ _ => split
      end
    | intros ? ].

Lemma setup_browser_calls (allowed : forall T : Type, call T -> bool) :
  (forall T (c : call T), is_setup_call c = true -> allowed T c = true) ->
  calls_only allowed _setup_browser.
Proof.
  intros H. unfold _setup_browser. repeat calls_step.
Qed.

Lemma navigate_calls (allowed : forall T : Type, call T -> bool) url
    wait_for_element wait_time :
  (forall T (c : call T), is_setup_call c = true -> allowed T c = true) ->
  (forall p u wu t, allowed _ (page_goto p u wu t) = true) ->
  (forall p s t, allowed _ (wait_for_selector p s t) = true) ->
  calls_only allowed (navigate url wait_for_element wait_time).
Proof.
  intros H G W. unfold navigate.
  apply calls_only_bind; [now apply setup_browser_calls | intros _].
  repeat first [apply calls_only_await; solve [auto] | calls_step].
Qed.

Lemma web_search_calls (allowed : forall T : Type, call T -> bool) host query
    max_results :
  (forall T (c : call T), is_setup_call c = true -> allowed T c = true) ->
  (forall p u wu t, allowed _ (page_goto p u wu t) = true) ->
  (forall p, allowed _ (page_content p) = true) ->
  calls_only allowed (web_search host query max_results).
Proof.
  intros H G C. unfold web_search, search_attempt.
  apply calls_only_bind; [now apply setup_browser_calls | intros _].
  apply calls_only_bind; [apply calls_only_lift | intros search_url].
  repeat first [apply calls_only_await; solve [auto] | calls_step].
Qed.

Lemma extract_content_calls (allowed : forall T : Type, call T -> bool) host
    url wait_for_element :
  (forall T (c : call T), is_setup_call c = true -> allowed T c = true) ->
  (forall p u wu t, allowed _ (page_goto p u wu t) = true) ->
  (forall p s t, allowed _ (wait_for_selector p s t) = true) ->
  (forall p, allowed _ (page_content p) = true) ->
  calls_only allowed (extract_content host url wait_for_element).
Proof.
  intros H G W C. unfold extract_content.
  apply calls_only_bind; [now apply setup_browser_calls | intros _].
  apply calls_only_bind.
  - destruct (given url); [now apply navigate_calls | exact I].
  - intros _. repeat first [apply calls_only_await; solve [auto] | calls_step].
Qed.

Lemma summarize_calls (allowed : forall T : Type, call T -> bool) text0
    max_tokens :
  (forall l p m, allowed _ (llm_complete l p m) = true) ->
  calls_only allowed (summarize text0 max_tokens).
Proof.
  intros H. unfold summarize.
  repeat first [apply calls_only_await; solve [auto] | calls_step].
Qed.

(** The calls each operation can make, read off its text. *)
Lemma perform_calls host (op : operation) :
  calls_only (permitted op) (perform host op).
Proof.
  destruct op; cbn [perform].
  - now apply setup_browser_calls.
  - apply calls_only_bind; [| intros _; exact I].
    apply web_search_calls; [intros T c E; cbn; now rewrite E | reflexivity ..].
  - apply navigate_calls; [intros T c E; cbn; now rewrite E | reflexivity ..].
  - apply calls_only_bind; [| intros _; exact I].
    apply extract_content_calls;
      [intros T c E; cbn; now rewrite E | reflexivity ..].
  - apply calls_only_bind; [| intros _; exact I].
    now apply summarize_calls.
  - unfold close. repeat calls_step.
Qed.

(** One step in showing that a program assigns no attribute. *)
Ltac frame_step :=
  first
    [ exact I
    | apply read_only_lift
    | apply read_only_attr_of
    | apply read_only_await
    | apply read_only_collect
    | apply read_only_bind
    | apply read_only_try_except
    | match goal with
      | |- read_only (match ?x with _ => _ end) => destruct x
      end
    | intros ? ].

Section Further.

Variable World : Type.
Variable respond : forall T : Type, call T -> World -> result T * World.

(** ** The class, operation by operation *)


(** ** Construction *)

(** X2. Construction never raises, whatever the environment holds and
    whether or not the model loads: it returns with the three handles
    absent and the in-progress flag clear, and the only outside call it
    can make is the loading of the model. *)
Theorem construction_never_raises (host : Host) (w : World) :
  let o := run respond (__init__ host) blank w in
  value o = Returned tt
  /\ playwright (self_after o) = None
  /\ browser (self_after o) = None
  /\ page (self_after o) = None
  /\ _initializing (self_after o) = false
  /\ forallb (fun e => negb (is_call e) || loads_model e) (trace o) = true
  /\ (List.length (filter is_call (trace o)) <= 1)%nat.
Proof.
  unfold __init__. cbn.
  destruct (given (getenv host "LLM")) as [model_path |]; cbn.
  - generalize (strip is_quote model_path) as stripped. intros stripped.
    destruct (path_exists host stripped); cbn; answer_cases; repeat split; lia.
  - repeat split; lia.
Qed.

(** ** Initialization *)

(** X3. Initialization creates only what is missing: a handle the object
    holds is kept as it is and the call that would create it is not
    made; with all three handles held, initialization makes no outside
    call at all and returns. *)
Theorem setup_browser_creates_only_missing (self : BrowserTool) (w : World) :
  let o := run respond _setup_browser self w in
  (forall pw, playwright self = Some pw ->
     playwright (self_after o) = Some pw
     /\ existsb starts_driver (trace o) = false)
  /\ (forall b, browser self = Some b ->
        browser (self_after o) = Some b
        /\ existsb is_launch_event (trace o) = false)
  /\ (forall p, page self = Some p ->
        page (self_after o) = Some p
        /\ existsb creates_page (trace o) = false)
  /\ (playwright self <> None -> browser self <> None -> page self <> None ->
      value o = Returned tt /\ self_after o = self
      /\ filter is_call (trace o) = []).
Proof.
  handle_cases self; destruct i; cbn; answer_cases;
    repeat match goal with
           | |- _ /\ _ => split
           | |- forall _, _ => intros ?
           | H : ?x <> ?x |- _ => now elim H
           | H : None = Some _ |- _ => discriminate H
           | H : Some _ = Some _ |- _ => injection H as <-
           | |- _ => reflexivity
           end.
Qed.

(** X4. A fault of initialization is always the wrapped one, is logged as
    an error and comes from a call that found the in-progress flag clear;
    the flag is clear again afterwards, so that a failed attempt does not
    lock out the next one. *)
Theorem setup_browser_failure (self : BrowserTool) (w : World) e :
  let o := run respond _setup_browser self w in
  value o = Raised e ->
  (exists cause,
      e = mk_exn Exception ("Failed to initialize browser: " ++ str cause))
  /\ _initializing self = false
  /\ _initializing (self_after o) = false
  /\ existsb is_error (trace o) = true.
Proof.
  handle_cases self; destruct i; cbn; answer_cases; intros E;
    try discriminate E; injection E as <-;
    (split; [eexists; reflexivity | repeat split]).
Qed.

(** X5. When the [LLM] setting names a file that exists, construction
    loads the model exactly once, from the setting with its quotes
    stripped, with a context of 2048 tokens and 4 threads, and binds [llm]
    in either case: to the engine when the load returned, to [None], with
    an error logged, when it raised. *)
Theorem init_loads_model_once (host : Host) (w : World) model_path :
  given (getenv host "LLM") = Some model_path ->
  path_exists host (strip is_quote model_path) = true ->
  let o := run respond (__init__ host) blank w in
  let load := Llama_new (strip is_quote model_path) 2048 4 in
  let loaded := respond _ load w in
  filter is_call (trace o) = [Called load (fst loaded)]
  /\ world_after o = snd loaded
  /\ llm (self_after o)
     = Some (match fst loaded with Returned l => Some l | Raised _ => None end)
  /\ existsb is_error (trace o) = is_raised (fst loaded).
Proof.
  intros H1 H2. unfold __init__. cbn. rewrite H1. cbn. rewrite H2. cbn.
  destruct (respond _ (Llama_new (strip is_quote model_path) 2048 4) w)
    as [[l | e] w']; cbn; repeat split.
Qed.

(** X6. Quotes around the [LLM] setting make no difference: construction
    on a host whose setting is a non-empty path put between two quote
    characters (double or single) runs exactly as on a host whose setting
    is the path itself. *)
Theorem init_ignores_surrounding_quotes (host1 host2 : Host) (w : World)
    (model_path : string) (q1 q2 : ascii) :
  model_path <> ""%string ->
  is_quote q1 = true -> is_quote q2 = true ->
  getenv host1 "LLM" = Some model_path ->
  getenv host2 "LLM" = Some (String q1 model_path ++ String q2 "")%string ->
  (forall file, path_exists host2 file = path_exists host1 file) ->
  run respond (__init__ host2) blank w = run respond (__init__ host1) blank w.
Proof.
  intros N Q1 Q2 H1 H2 F. unfold __init__. cbn. rewrite H1, H2.
  destruct model_path as [| c s]; [now elim N |].
  pose proof (strip_wrapped is_quote q1 q2 (String c s) Q1 Q2) as S.
  cbn [given append String.eqb] in S |- *.
  rewrite S, F. reflexivity.
Qed.

(** ** Teardown *)

(** X7. [close] releases the page, then the process, then the driver, each
    only if the object holds it, and stops at the first release that
    raises: the releases requested are a prefix of the handles held, all
    of them when no call raised, and an error is logged exactly when one
    did.  [close] calls nothing else. *)
Theorem close_releases_in_order (self : BrowserTool) (w : World) :
  let o := run respond close self w in
  (exists rest, held self = releases (trace o) ++ rest)
  /\ (existsb call_raised (trace o) = false -> releases (trace o) = held self)
  /\ existsb is_error (trace o) = existsb call_raised (trace o)
  /\ (List.length (filter call_raised (trace o)) <= 1)%nat
  /\ List.length (filter is_call (trace o)) = List.length (releases (trace o)).
Proof.
  handle_cases self; cbn; answer_cases;
    (split; [eexists; cbn; reflexivity |]);
    repeat split; try lia; intros E; try discriminate E; reflexivity.
Qed.

(** ** Summarization *)

(** X8. With an engine bound, [summarize] makes one outside call, the
    completion of the prompt built around the text cut to its first 4000
    characters, and leaves the object alone.  It returns the first choice
    of the completion with the whitespace around it stripped; a failure of
    the call, as a completion without choices, is logged and raised as the
    wrapped fault.  A warning is logged exactly when the text was cut. *)
Theorem summarize_with_engine (self : BrowserTool) (w : World) text0 max_tokens
    engine :
  llm self = Some (Some engine) ->
  let o := run respond (summarize text0 max_tokens) self w in
  let complete := llm_complete engine (prompt_of text0) max_tokens in
  let answer := respond _ complete w in
  filter is_call (trace o) = [Called complete (fst answer)]
  /\ world_after o = snd answer
  /\ self_after o = self
  /\ value o
     = match fst answer with
       | Returned output =>
           match choices output with
           | choice :: _ => Returned (strip isspace (text choice))
           | [] => Raised (mk_exn Exception
                             "Failed to generate summary: list index out of range")
           end
       | Raised e =>
           Raised (mk_exn Exception ("Failed to generate summary: " ++ str e))
       end
  /\ existsb is_warning (trace o) = too_long text0
  /\ existsb is_error (trace o) = is_raised (value o).
Proof.
  intros H. destruct self as [pw b p i l]; cbn in H; subst l.
  unfold prompt_of. cbn.
  destruct (too_long text0); cbn;
    destruct (respond _ (llm_complete engine _ max_tokens) w)
      as [[[[| choice rest]] | e] w']; cbn; repeat split.
Qed.

(** X9. The text that goes into the prompt is the text itself when it has
    at most 4000 characters, and otherwise its first 4000 characters
    followed by three dots: never more than 4003 characters. *)
Theorem prompt_text_bounded (text0 : string) :
  Z.of_nat (String.length (truncated text0)) <= 4003
  /\ (Z.of_nat (String.length text0) <= 4000 -> truncated text0 = text0)
  /\ (4000 < Z.of_nat (String.length text0) ->
      Z.of_nat (String.length (truncated text0)) = 4003
      /\ exists rest, text0 = (substring 0 (Z.to_nat 4000) text0 ++ rest)%string).
Proof.
  unfold truncated, too_long.
  pose proof (length_substring_le (Z.to_nat 4000) text0) as L.
  destruct (4000 <? Z.of_nat (String.length text0)) eqn:E.
  - apply Z.ltb_lt in E. rewrite length_append.
    change (String.length "...") with 3%nat.
    repeat split; try lia.
    + rewrite length_substring_eq; lia.
    + apply substring_is_prefix.
  - apply Z.ltb_ge in E. repeat split; try lia.
Qed.

(** ** Web search *)

(** The loop of [web_search] either gets through all its items, which are
    then well formed, and has appended the kept ones, or it raises at an
    item that is not. *)
Lemma collect_value host items : forall results self w,
  match value (run respond (collect host items results) self w) with
  | Returned rs =>
      forallb well_formed items = true
      /\ rs = results ++ map result_of (filter kept items)
  | Raised _ => forallb well_formed items = false
  end.
Proof.
  induction items as [| item items IH]; intros results self w.
  - cbn. now rewrite app_nil_r.
  - destruct item as [| | | | | | d]; try reflexivity.
    rewrite collect_dict. cbn [forallb filter]. unfold well_formed.
    destruct (kept (JDict d)) eqn:K.
    + destruct (field (JDict d) "title") eqn:T;
        cbn [py_slice_to lift bind log run value]; try reflexivity;
        specialize (IH (results ++ [result_of (JDict d)]) self w);
        destruct (value (run respond (collect host items _) self w));
        cbn [andb map]; try exact IH;
        destruct IH as [W ->]; rewrite <- app_assoc; split; auto.
    + specialize (IH results self w).
      destruct (value (run respond (collect host items results) self w));
        cbn [andb]; exact IH.
Qed.

(** What the search interaction returns, when it returns: nothing, or the
    kept items of the slice of some value. *)
Lemma search_attempt_returned host search_url max_results self w rs :
  value (run respond (search_attempt host search_url max_results) self w)
  = Returned rs ->
  rs = []
  \/ exists v considered,
       py_slice_to v max_results = Returned considered
       /\ rs = map result_of (filter kept (py_items considered)).
Proof.
  destruct self as [pw b [p |] i l]; cbn; [| discriminate].
  destruct (respond _ (page_goto p search_url networkidle None) w)
    as [[[resp |] | e] w1]; cbn; try discriminate;
    [| intros E; injection E as <-; now left].
  destruct (status resp =? 200); cbn;
    [| intros E; injection E as <-; now left].
  destruct (respond _ (page_content p) w1) as [[html | e] w2]; cbn;
    [| discriminate].
  destruct (soup_find_pre host html) as [json_text |]; cbn;
    [| intros E; injection E as <-; now left].
  destruct (json_loads host json_text) as [data | e]; cbn; [| discriminate].
  destruct (py_get data "results" (JList [])) as [v | e]; cbn; [| discriminate].
  destruct (py_slice_to v max_results) as [considered | e] eqn:S; cbn;
    [| discriminate].
  rewrite !run_bind. unfold and_then.
  pose proof (collect_value host (py_items considered) []
                {| playwright := pw; browser := b; page := Some p;
                   _initializing := i; llm := l |} w2) as C.
  destruct (value (run respond (collect host (py_items considered) []) _ w2));
    cbn; [| discriminate].
  destruct C as [_ ->]. intros E; injection E as <-.
  right. now exists v, considered.
Qed.

Lemma kept_results_truthy (items : list json) :
  Forall (fun r => truthy (title r) = true /\ truthy (url r) = true)
    (map result_of (filter kept items)).
Proof.
  apply Forall_forall. intros r I.
  apply in_map_iff in I as (item & <- & I).
  apply filter_In in I as [_ K]. unfold kept in K.
  apply andb_true_iff in K. exact K.
Qed.

Lemma length_list_ascii_of_string (s : string) :
  List.length (list_ascii_of_string s) = String.length s.
Proof.
  induction s as [| c s IH]; cbn; [reflexivity | now rewrite IH].
Qed.

(** A slice up to a stop that is not negative has at most that many
    items. *)
Lemma slice_items_bounded v stop considered :
  0 <= stop ->
  py_slice_to v stop = Returned considered ->
  (List.length (py_items considered) <= Z.to_nat stop)%nat.
Proof.
  intros H S.
  assert (B : forall len, (slice_stop len stop <= Z.to_nat stop)%nat).
  { intros len. unfold slice_stop.
    destruct (stop <? 0) eqn:N; [apply Z.ltb_lt in N; lia | lia]. }
  destruct v; cbn in S; try discriminate S; injection S as <-; cbn.
  - unfold str_prefix. rewrite length_map, length_list_ascii_of_string.
    etransitivity; [apply length_substring_le | apply B].
  - unfold list_prefix. etransitivity; [apply firstn_le_length | apply B].
Qed.

(** X10. However the environment and the backend answer, every result that
    [web_search] returns has a title and a url that are not empty, and for
    a [max_results] that is not negative there are at most [max_results]
    of them. *)
Theorem web_search_results_kept host self w query max_results rs :
  value (run respond (web_search host query max_results) self w) = Returned rs ->
  Forall (fun r => truthy (title r) = true /\ truthy (url r) = true) rs
  /\ (0 <= max_results -> Z.of_nat (List.length rs) <= max_results).
Proof.
  destruct (web_search_value World respond host self w query max_results) as [V _].
  cbn zeta in V. rewrite V. clear V.
  destruct (value (run respond _setup_browser self w)) as [[] | e];
    [| discriminate].
  destruct (search_url_of host query) as [search_url | e]; [| discriminate].
  destruct (value (run respond (search_attempt host _ max_results) _ _))
    as [results | e] eqn:A.
  - intros E; injection E as <-.
    apply search_attempt_returned in A
      as [-> | (v & considered & S & ->)].
    + split; [constructor | cbn; lia].
    + split; [apply kept_results_truthy |].
      intros H. pose proof (slice_items_bounded v max_results considered H S).
      pose proof (filter_length_le kept (py_items considered)).
      rewrite length_map. lia.
  - intros E; injection E as <-. split; [constructor | cbn; lia].
Qed.

(** X11. All or nothing: on a 200 response whose preformatted block parses
    to a JSON object with a [results] array, [web_search] returns the kept
    entries of the slice when every entry of the slice is well formed, and
    the empty list as soon as one is not: one entry that is no JSON object,
    or a kept entry whose title is neither a string nor an array, makes the
    search lose the valid entries too. *)
Theorem web_search_all_or_nothing host self w query max_results
    search_url p resp html json_text d entries :
  let s := run respond _setup_browser self w in
  let loaded :=
    respond _ (page_goto p search_url networkidle None) (world_after s) in
  let considered := list_prefix entries max_results in
  search_url_of host query = Returned search_url ->
  value s = Returned tt ->
  page (self_after s) = Some p ->
  fst loaded = Returned (Some resp) ->
  status resp = 200 ->
  fst (respond _ (page_content p) (snd loaded)) = Returned html ->
  soup_find_pre host html = Some json_text ->
  json_loads host json_text = Returned (JDict d) ->
  lookup "results" d = Some (JList entries) ->
  value (run respond (web_search host query max_results) self w)
  = Returned (if forallb well_formed considered
              then map result_of (filter kept considered)
              else []).
Proof.
  cbn zeta. intros U S P G St C F J L.
  destruct (web_search_value World respond host self w query max_results) as [V _].
  cbn zeta in V. rewrite V, S, U. clear V S U.
  revert P G C.
  generalize (run respond _setup_browser self w) as s.
  intros [v [pw b pg i l] w1 tr] P G C. cbn in P, G, C. subst pg.
  unfold search_attempt.
  cbn. rewrite G. cbn. rewrite St. cbn. rewrite C. cbn. rewrite F. cbn.
  rewrite J. cbn. rewrite L. cbn.
  rewrite !run_bind. unfold and_then.
  match goal with
  | |- context [run respond (collect host ?items []) ?self ?w] =>
      pose proof (collect_value host items [] self w) as K;
      destruct (value (run respond (collect host items []) self w))
  end.
  - destruct K as [-> ->]. reflexivity.
  - rewrite K. reflexivity.
Qed.

(** ** Navigation *)

(** X12. Once initialization has returned, every fault of [navigate] is
    logged as an error and reaches the caller as the one wrapped fault
    that names the URL, whatever went wrong: no page to load into, the
    load raising, the load giving no response (whose own message, naming
    the URL, is wrapped a second time), or the awaited element not
    showing.  The object is as initialization left it. *)
Theorem navigate_fault_message (self : BrowserTool) (w : World) url
    wait_for_element wait_time e :
  let s := run respond _setup_browser self w in
  let o := run respond (navigate url wait_for_element wait_time) self w in
  let load p := page_goto p url domcontentloaded (Some 30000) in
  value s = Returned tt ->
  value o = Raised e ->
  existsb is_error (trace o) = true
  /\ self_after o = self_after s
  /\ exists detail,
       e = mk_exn Exception ("Failed to navigate to " ++ url ++ ": " ++ detail)
       /\ ((page (self_after s) = None
            /\ detail = "'NoneType' object has no attribute 'goto'"%string)
           \/ (exists p cause,
                  page (self_after s) = Some p
                  /\ fst (respond _ (load p) (world_after s)) = Raised cause
                  /\ detail = str cause)
           \/ (exists p,
                  page (self_after s) = Some p
                  /\ fst (respond _ (load p) (world_after s)) = Returned None
                  /\ detail = ("Failed to navigate to " ++ url
                               ++ " - no response received")%string)
           \/ (exists p selector cause,
                  page (self_after s) = Some p
                  /\ given wait_for_element = Some selector
                  /\ fst (respond _ (wait_for_selector p selector (wait_time * 1000))
                            (snd (respond _ (load p) (world_after s))))
                     = Raised cause
                  /\ detail = ("Element '" ++ selector ++ "' not found on page after "
                               ++ str_of_Z wait_time ++ "s: " ++ str cause)%string)).
Proof.
  cbn zeta. unfold navigate. rewrite run_bind. unfold and_then.
  generalize (run respond _setup_browser self w) as s.
  intros [v [pw b pg i l] w1 tr] S. cbn in S. subst v. cbn.
  rewrite existsb_app.
  destruct pg as [p |]; cbn.
  - destruct (respond _ (page_goto p url domcontentloaded (Some 30000)) w1)
      as [[[resp |] | cause] w2] eqn:G; cbn.
    + destruct (given wait_for_element) as [selector |] eqn:W; cbn.
      * destruct (400 <=? status resp); cbn;
          destruct (respond _ (wait_for_selector p selector (wait_time * 1000)) w2)
            as [[[] | cause] w3] eqn:Q; cbn; intros E; try discriminate E;
          injection E as <-;
          (split; [apply orb_true_r | split; [reflexivity |]]);
          eexists; (split; [reflexivity |]);
          right; right; right; exists p, selector, cause;
          rewrite G; cbn; rewrite Q; repeat split.
      * destruct (400 <=? status resp); cbn; discriminate.
    + intros E; injection E as <-.
      split; [apply orb_true_r | split; [reflexivity |]].
      eexists; split; [reflexivity |].
      right; right; left. exists p. rewrite G. repeat split.
    + intros E; injection E as <-.
      split; [apply orb_true_r | split; [reflexivity |]].
      eexists; split; [reflexivity |].
      right; left. exists p, cause. rewrite G. repeat split.
  - intros E; injection E as <-.
    split; [apply orb_true_r | split; [reflexivity |]].
    eexists; split; [reflexivity |]. left. repeat split.
Qed.

(** ** What the operations leave in place *)

Lemma keeps_refl (self : BrowserTool) : keeps self self.
Proof. unfold keeps. repeat split; auto. Qed.

Lemma keeps_trans (a b c : BrowserTool) : keeps a b -> keeps b c -> keeps a c.
Proof.
  unfold keeps. intros (P1 & B1 & G1 & I1 & L1) (P2 & B2 & G2 & I2 & L2).
  repeat split; auto; congruence.
Qed.

Lemma setup_browser_keeps (self : BrowserTool) (w : World) :
  keeps self (self_after (run respond _setup_browser self w)).
Proof.
  unfold keeps.
  handle_cases self; destruct i; cbn; answer_cases; repeat split;
    intros ? E; try discriminate E; exact E.
Qed.

Lemma close_keeps_flag_and_engine (self : BrowserTool) (w : World) :
  let o := run respond close self w in
  _initializing (self_after o) = _initializing self
  /\ llm (self_after o) = llm self.
Proof.
  handle_cases self; cbn; answer_cases; split; reflexivity.
Qed.

Lemma setup_browser_preserves_kept (self0 : BrowserTool) :
  preserves respond (keeps self0) _setup_browser.
Proof.
  intros self w H. eapply keeps_trans; [exact H | apply setup_browser_keeps].
Qed.

Lemma navigate_preserves_kept (self0 : BrowserTool) url wait_for_element wait_time :
  preserves respond (keeps self0) (navigate url wait_for_element wait_time).
Proof.
  destruct (navigate_after_setup url wait_for_element wait_time) as (body & -> & R).
  apply preserves_bind.
  - apply setup_browser_preserves_kept.
  - intros _. now apply preserves_read_only.
Qed.

Lemma extract_content_preserves_kept (self0 : BrowserTool) host url
    wait_for_element :
  preserves respond (keeps self0) (extract_content host url wait_for_element).
Proof.
  unfold extract_content.
  apply preserves_bind; [apply setup_browser_preserves_kept | intros _].
  apply preserves_bind.
  - destruct (given url).
    + apply navigate_preserves_kept.
    + apply preserves_read_only. exact I.
  - intros _. apply preserves_read_only. repeat frame_step.
Qed.

Lemma web_search_preserves_kept (self0 : BrowserTool) host query max_results :
  preserves respond (keeps self0) (web_search host query max_results).
Proof.
  intros self w H.
  destruct (web_search_value World respond host self w query max_results)
    as [_ F].
  cbn zeta in F. rewrite F. now apply setup_browser_preserves_kept.
Qed.

Lemma summarize_preserves {P : BrowserTool -> Prop} text0 max_tokens :
  preserves respond P (summarize text0 max_tokens).
Proof.
  intros self w H. now rewrite summarize_frame.
Qed.

(** X13. Whatever the environment answers and whether it returns or
    raises, an operation leaves the in-progress flag and the engine as it
    found them, and every operation but [close] leaves each handle the
    object holds in place: only [close] lets go of a handle. *)
Theorem operations_keep_handles host (op : operation) (self : BrowserTool)
    (w : World) :
  let o := run respond (perform host op) self w in
  _initializing (self_after o) = _initializing self
  /\ llm (self_after o) = llm self
  /\ (op <> Close -> keeps self (self_after o)).
Proof.
  cbn zeta.
  assert (K : op <> Close ->
              keeps self (self_after (run respond (perform host op) self w))).
  { intros N. destruct op; cbn [perform].
    - apply setup_browser_keeps.
    - apply preserves_bind;
        [apply web_search_preserves_kept
        | intros _; now apply preserves_read_only | apply keeps_refl].
    - apply navigate_preserves_kept, keeps_refl.
    - apply preserves_bind;
        [apply extract_content_preserves_kept
        | intros _; now apply preserves_read_only | apply keeps_refl].
    - apply preserves_bind;
        [apply summarize_preserves
        | intros _; now apply preserves_read_only | apply keeps_refl].
    - now elim N. }
  destruct op;
    try (assert (K' := K ltac:(discriminate));
         pose proof K' as (_ & _ & _ & I & L);
         split; [exact I | split; [exact L | intros _; exact K']]).
  destruct (close_keeps_flag_and_engine self w) as [I L].
  cbn [perform]. split; [exact I | split; [exact L | intros N; now elim N]].
Qed.

(** ** Content extraction *)


(** An initialization that follows one that returned finds nothing to do:
    it returns without an outside call and leaves the object as it is. *)
Lemma setup_browser_again (self : BrowserTool) (w w' : World) :
  let o := run respond _setup_browser self w in
  value o = Returned tt ->
  let o' := run respond _setup_browser (self_after o) w' in
  value o' = Returned tt
  /\ self_after o' = self_after o
  /\ world_after o' = w'
  /\ filter is_call (trace o') = [].
Proof.
  handle_cases self; destruct i; cbn; answer_cases; intros E;
    try discriminate E; repeat split.
Qed.

(** [extract_content] with a URL is [navigate] followed by
    [extract_content] without one: the initialization that follows one
    that returned finds nothing to do. *)
Lemma extract_content_with_url host (self : BrowserTool) (w : World)
    (url0 : string) wait_for_element wait_for_element' :
  url0 <> ""%string ->
  same_effect
    (run respond (extract_content host (Some url0) wait_for_element) self w)
    (run respond
       (bind (navigate url0 wait_for_element 10)
          (fun _ => extract_content host None wait_for_element')) self w).
Proof.
  intros N.
  assert (G : given (Some url0) = Some url0)
    by (destruct url0; [now elim N | reflexivity]).
  unfold extract_content. rewrite G. cbn [given bind].
  destruct (navigate_after_setup url0 wait_for_element 10) as (body & -> & RB).
  pose proof (read_only_frame World respond body RB) as FB.
  pose proof (setup_browser_again self w) as A. cbn zeta in A.
  match goal with
  | |- context [bind get_self ?f] => remember (bind get_self f) as read eqn:E
  end.
  clear E. unfold same_effect.
  rewrite !run_bind. unfold and_then.
  revert A. generalize (run respond _setup_browser self w).
  intros [v s1 w1 tr] A. cbn [value self_after world_after trace] in A |- *.
  destruct v as [[] | e]; cbn [value self_after world_after trace];
    [| repeat split].
  rewrite !run_bind. unfold and_then.
  cbn [value self_after world_after trace].
  destruct (A w1 eq_refl) as (V2 & S2 & W2 & C2). revert V2 S2 W2 C2.
  generalize (run respond _setup_browser s1 w1).
  intros [v2 s2 w2 tr2]. cbn [value self_after world_after trace].
  intros -> -> -> C2.
  specialize (FB s1 w1). revert FB. generalize (run respond body s1 w1).
  intros [vb sb wb trb]. cbn [value self_after world_after trace]. intros ->.
  destruct vb as [[] | e]; cbn [value self_after world_after trace].
  - rewrite ?run_bind. unfold and_then.
    destruct (A wb eq_refl) as (V3 & S3 & W3 & C3). revert V3 S3 W3 C3.
    generalize (run respond _setup_browser s1 wb).
    intros [v3 s3 w3 tr3]. cbn [value self_after world_after trace].
    intros -> -> -> C3.
    repeat split. cbn [trace]. rewrite !filter_app, C2, C3. cbn [app].
    now rewrite app_assoc.
  - repeat split. rewrite !filter_app, C2. reflexivity.
Qed.

(** ** What an operation never does *)

Lemma calls_only_trace allowed {A} (p : prog A) :
  calls_only allowed p ->
  forall self w, forallb (within allowed) (trace (run respond p self w)) = true.
Proof.
  induction p as [a | e | T c k IH | k IH | s k IH | l m k IH];
    cbn; intros H self w; auto.
  destruct H as [H K]. rewrite H. cbn. now apply IH.
Qed.

(** X15. Every operation keeps to its own outside calls, whatever the
    environment answers: initialization only starts the driver, launches
    the process and creates the page; [web_search], [navigate] and
    [extract_content] add to these the load, the wait for an element and
    the reading of the markup, each as far as it is written to;
    [summarize] calls the engine and nothing else; [close] only releases.
    So no operation ever loads the model, only [close] releases a handle,
    and [close] and [summarize] never start anything. *)
Theorem operations_call_only_their_own host (op : operation)
    (self : BrowserTool) (w : World) :
  let tr := trace (run respond (perform host op) self w) in
  forallb (within (permitted op)) tr = true
  /\ existsb loads_model tr = false
  /\ (op <> Close -> releases tr = [])
  /\ (existsb is_launch_event tr = true ->
      op <> Close /\ forall text0 max_tokens, op <> Summarize text0 max_tokens).
Proof.
  cbn zeta.
  pose proof (calls_only_trace _ _ (perform_calls host op) self w) as P.
  revert P. generalize (trace (run respond (perform host op) self w)) as tr.
  intros tr P. split; [exact P |].
  induction tr as [| e tr IH]; [repeat split; intros; discriminate |].
  cbn [forallb] in P. apply andb_true_iff in P as [Pe P].
  destruct (IH P) as (L & R & S). clear IH.
  split; [| split].
  - cbn [existsb]. rewrite L, orb_false_r.
    destruct e as [T c r | l m]; [| reflexivity].
    destruct c; try reflexivity. destruct op; discriminate Pe.
  - intros N. unfold releases in *. cbn [flat_map]. rewrite (R N), app_nil_r.
    destruct e as [T c r | l m]; [| reflexivity].
    destruct c; try reflexivity; destruct op; try discriminate Pe; now elim N.
  - cbn [existsb]. intros E. apply orb_true_iff in E as [E | E]; [| now apply S].
    destruct e as [T c r | l m]; [| discriminate E].
    destruct c; try discriminate E.
    destruct op; try discriminate Pe; split; intros; discriminate.
Qed.

End Further.

(** ** Callers during an initialization *)

(** X20. While an initialization is in flight and no page exists yet, the
    guard of [_setup_browser] lets every other caller through at once:
    without a single outside call and without suspending, [navigate]
    fails with the wrapped fault of the missing page, [web_search]
    returns the empty list (or raises the fault of a query that does not
    encode), and [extract_content] raises the fault of the missing page,
    its own without a URL and that of [navigate] with one.  The object is
    not touched. *)
Theorem operations_during_initialization host (self : BrowserTool) url
    wait_for_element wait_time query max_results :
  _initializing self = true ->
  page self = None ->
  let no_goto :=
    mk_exn Exception
      ("Failed to navigate to " ++ url
       ++ ": 'NoneType' object has no attribute 'goto'") in
  advance (navigate url wait_for_element wait_time) self
  = (Done (Raised no_goto), self)
  /\ advance (web_search host query max_results) self
     = (Done match quote_plus host query with
             | Returned _ => Returned []
             | Raised e => Raised e
             end, self)
  /\ advance (extract_content host None wait_for_element) self
     = (Done (Raised no_page_loaded), self)
  /\ (url <> ""%string ->
      advance (extract_content host (Some url) wait_for_element) self
      = (Done (Raised no_goto), self)).
Proof.
  destruct self as [pw b p i l]. cbn [_initializing page]. intros -> ->.
  cbn. split; [reflexivity |]. split; [| split; [reflexivity |]].
  - unfold search_url_of. destruct (quote_plus host query); reflexivity.
  - intros N. destruct url as [| c u]; [now elim N | reflexivity].
Qed.

(** * The tool layer *)

Section ToolLayer.

Variable host : Host.
Variable World : Type.
Variable respond : forall T : Type, call T -> World -> result T * World.

Lemma init_outcome (w : World) :
  let o := run respond (__init__ host) blank w in
  value o = Returned tt
  /\ handles_ordered (self_after o) = true
  /\ _initializing (self_after o) = false
  /\ (List.length (filter loads_model (trace o)) <= 1)%nat.
Proof.
  unfold __init__. cbn.
  destruct (given (getenv host "LLM")) as [model_path |]; cbn.
  - generalize (strip is_quote model_path) as stripped. intros stripped.
    destruct (path_exists host stripped); cbn; answer_cases; repeat split; lia.
  - repeat split; lia.
Qed.

Lemma close_returns (self : BrowserTool) (w : World) :
  value (run respond close self w) = Returned tt.
Proof.
  handle_cases self; cbn; answer_cases; reflexivity.
Qed.

(** [cleanup_browser] always lets the instance go. *)
Lemma cleanup_browser_outcome (g : option BrowserTool) (w : World) :
  main.cleanup_browser respond g w
  = {| main.reply := Returned tt;
       main.instance := None;
       main.world := match g with
                     | Some tool => world_after (run respond close tool w)
                     | None => w
                     end;
       main.events := match g with
                      | Some tool => trace (run respond close tool w)
                      | None => []
                      end |}.
Proof.
  unfold main.cleanup_browser.
  destruct g as [tool |]; [rewrite close_returns |]; reflexivity.
Qed.

(** What keeps the handles ordered and the flag as it is keeps the
    instance settled. *)
Lemma keeps_settled_of {A} (p : prog A) :
  preserves respond ordered p ->
  (forall self, preserves respond (keeps self) p) ->
  preserves respond main.tool_settled p.
Proof.
  intros O K self w [H F]. split.
  - now apply O.
  - destruct (K self self w (keeps_refl self)) as (_ & _ & _ & I & _).
    now rewrite I.
Qed.

Lemma on_browser_settled {A} (p : prog A) wrap g (w : World) :
  preserves respond main.tool_settled p -> main.settled g ->
  main.settled (main.instance (main.on_browser host respond p wrap g w)).
Proof.
  intros K S. unfold main.on_browser, main.get_browser_tool.
  destruct g as [tool |]; cbn -[__init__].
  - now apply K.
  - destruct (init_outcome w) as (V & O & F & _). cbn zeta in V, O, F.
    rewrite V. cbn -[__init__]. apply K. now split.
Qed.

Lemma handle_settled req g (w : World) :
  main.settled g ->
  main.settled (main.instance (main.handle host respond req g w)).
Proof.
  intros S. destruct req; cbn [main.handle].
  - apply on_browser_settled; [| exact S].
    apply keeps_settled_of;
      [apply web_search_preserves_order
      | intros self0; apply web_search_preserves_kept].
  - apply on_browser_settled; [| exact S].
    apply keeps_settled_of;
      [apply navigate_preserves_order
      | intros self0; apply navigate_preserves_kept].
  - apply on_browser_settled; [| exact S].
    apply keeps_settled_of;
      [apply extract_content_preserves_order
      | intros self0; apply extract_content_preserves_kept].
  - apply on_browser_settled; [| exact S].
    apply summarize_preserves.
  - apply on_browser_settled; [| exact S].
    apply keeps_settled_of.
    + apply preserves_bind;
        [apply navigate_preserves_order
        | intros _; apply extract_content_preserves_order].
    + intros self0. apply preserves_bind;
        [apply navigate_preserves_kept
        | intros _; apply extract_content_preserves_kept].
  - unfold main.close_browser. rewrite cleanup_browser_outcome. exact I.
Qed.

(** X16. Served one after the other from the start of the server, the
    tool calls leave the instance settled after each of them, whatever
    the calls are, whatever the environment answers and whichever of them
    fail: it is not constructed yet or was let go by [close_browser], or
    its page has a process, its process a driver, and no initialization
    is marked as in progress. *)
Theorem served_instance_settled (reqs : list main.request) (w : World) :
  Forall (fun s => main.settled (main.instance s))
    (main.serve host respond reqs None w).
Proof.
  assert (G : forall g w0, main.settled g ->
                Forall (fun s => main.settled (main.instance s))
                  (main.serve host respond reqs g w0)).
  { induction reqs as [| req reqs IH]; intros g w0 S; cbn [main.serve].
    - constructor.
    - pose proof (handle_settled req g w0 S) as S'. constructor; [exact S' |].
      now apply IH. }
  apply G. exact I.
Qed.

(** X17. [close_browser] always answers success and lets the instance go,
    whatever releasing the handles did; on a server that holds no
    instance it does nothing at all, so that closing twice is closing
    once, and the tool call that follows constructs a new object. *)
Theorem close_browser_always_succeeds (g : option BrowserTool) (w : World) :
  let s := main.close_browser respond g w in
  main.reply s = Returned (main.Status "success" "Browser closed successfully")
  /\ main.instance s = None
  /\ (forall w' : World,
        main.close_browser respond (main.instance s) w'
        = {| main.reply :=
               Returned (main.Status "success" "Browser closed successfully");
             main.instance := None; main.world := w'; main.events := [] |})
  /\ (forall req (w' : World),
        req <> main.CloseBrowserTool ->
        exists tool,
          main.instance (main.handle host respond req (main.instance s) w')
          = Some tool
          /\ llm tool
             = llm (self_after (run respond (__init__ host) blank w'))).
Proof.
  cbn zeta. unfold main.close_browser. rewrite cleanup_browser_outcome.
  cbn [main.instance main.reply main.world main.events].
  split; [reflexivity |]. split; [reflexivity |]. split; [reflexivity |].
  intros req w' N.
  destruct (init_outcome w') as (V & _). cbn zeta in V.
  destruct req; try (now elim N); cbn [main.handle];
    unfold main.web_search, main.navigate, main.extract_content,
      main.summarize, main.get_page_content, main.on_browser,
      main.get_browser_tool;
    rewrite V; cbn [main.reply main.instance main.world main.events];
    eexists; (split; [reflexivity |]).
  - destruct (web_search_preserves_kept World respond
                (self_after (run respond (__init__ host) blank w'))
                host query max_results _ (world_after (run respond (__init__ host) blank w')) (keeps_refl _))
      as (_ & _ & _ & _ & L). exact L.
  - destruct (navigate_preserves_kept World respond
                (self_after (run respond (__init__ host) blank w'))
                url0 wait_for_element wait_time _ (world_after (run respond (__init__ host) blank w')) (keeps_refl _))
      as (_ & _ & _ & _ & L). exact L.
  - destruct (extract_content_preserves_kept World respond
                (self_after (run respond (__init__ host) blank w'))
                host url0 wait_for_element _ (world_after (run respond (__init__ host) blank w')) (keeps_refl _))
      as (_ & _ & _ & _ & L). exact L.
  - now rewrite summarize_frame.
  - match goal with
    | |- llm (self_after (run respond ?p ?s ?w0)) = _ =>
        assert (K : keeps s (self_after (run respond p s w0)))
    end.
    { apply preserves_bind;
        [apply navigate_preserves_kept
        | intros _; apply extract_content_preserves_kept | apply keeps_refl]. }
    destruct K as (_ & _ & _ & _ & L). exact L.
Qed.

(** X18. The tool [get_page_content] is the tool [extract_content] given
    the URL: for a URL that is not empty both make the same outside calls
    with the same answers, leave the same instance and environment, and
    fail alike; they return the same text, the first with the URL beside
    it. *)
Theorem get_page_content_is_extract_content (url0 : string)
    (g : option BrowserTool) (w : World) :
  url0 <> ""%string ->
  let a := main.get_page_content host respond url0 g w in
  let b := main.extract_content host respond (Some url0) None g w in
  main.reply a
  = match main.reply b with
    | Returned (main.Content cleaned) => Returned (main.PageContent url0 cleaned)
    | other => other
    end
  /\ main.instance a = main.instance b
  /\ main.world a = main.world b
  /\ filter is_call (main.events a) = filter is_call (main.events b).
Proof.
  intros N. cbn zeta.
  unfold main.get_page_content, main.extract_content, main.on_browser.
  destruct (main.reply (main.get_browser_tool host respond g w)) as [tool | e];
    [| repeat split].
  destruct (extract_content_with_url World respond host tool
              (main.world (main.get_browser_tool host respond g w))
              url0 None None N) as (V & S & W & C).
  cbn [main.reply main.instance main.world main.events].
  rewrite V, S, W, !filter_app, C.
  generalize (value (run respond
                       (bind (navigate url0 None 10)
                          (fun _ => extract_content host None None)) tool
                       (main.world (main.get_browser_tool host respond g w)))).
  intros [cleaned | e]; repeat split.
Qed.

Lemma permitted_no_model_load (op : operation) (tr : list event) :
  forallb (within (permitted op)) tr = true -> filter loads_model tr = [].
Proof.
  induction tr as [| e tr IH]; intros P; [reflexivity |].
  cbn [forallb] in P. apply andb_true_iff in P as [Pe P].
  cbn [filter]. rewrite (IH P).
  destruct e as [T c r | l m]; [| reflexivity].
  destruct c; try reflexivity. destruct op; discriminate Pe.
Qed.

(** Every tool but [close_browser] runs, on the instance, a program
    confined to the outside calls of one operation. *)
Lemma handle_calls req :
  req <> main.CloseBrowserTool ->
  exists (A : Type) (p : prog A) (wrap : A -> main.tool_reply) (op : operation),
    calls_only (permitted op) p
    /\ main.handle host respond req = main.on_browser host respond p wrap.
Proof.
  intros N. destruct req; [| | | | | now elim N].
  - exists _, (web_search host query max_results), main.Results,
      (WebSearch query max_results).
    split; [| reflexivity].
    apply web_search_calls; [intros T c E; cbn; now rewrite E | reflexivity ..].
  - exists _, (navigate url0 wait_for_element wait_time),
      (fun _ => main.Status "success" ("Navigated to " ++ url0)),
      (Navigate url0 wait_for_element wait_time).
    split; [| reflexivity].
    apply navigate_calls; [intros T c E; cbn; now rewrite E | reflexivity ..].
  - exists _, (extract_content host url0 wait_for_element), main.Content,
      (ExtractContent url0 wait_for_element).
    split; [| reflexivity].
    apply extract_content_calls;
      [intros T c E; cbn; now rewrite E | reflexivity ..].
  - exists _, (summarize text0 max_tokens), main.Summary,
      (Summarize text0 max_tokens).
    split; [| reflexivity]. now apply summarize_calls.
  - exists _, (bind (navigate url0 None 10)
                 (fun _ => extract_content host None None)),
      (main.PageContent url0), (ExtractContent None None).
    split; [| reflexivity].
    apply calls_only_bind; [| intros _];
      [apply navigate_calls | apply extract_content_calls];
      first [intros T c E; cbn; now rewrite E | reflexivity].
Qed.

(** X19. The model is loaded by construction only: a tool call on a
    server that holds an instance never loads it, and a tool call that
    has to construct the instance loads it at most once.  Since
    [close_browser] lets the instance go, the first tool call after it
    loads the model again. *)
Theorem model_loaded_only_at_construction (req : main.request)
    (g : option BrowserTool) (w : World) :
  let s := main.handle host respond req g w in
  (List.length (filter loads_model (main.events s))
   <= match g with None => 1 | Some _ => 0 end)%nat
  /\ (req = main.CloseBrowserTool -> filter loads_model (main.events s) = []).
Proof.
  cbn zeta.
  assert (C : filter loads_model
                (main.events (main.close_browser respond g w)) = []).
  { unfold main.close_browser. rewrite cleanup_browser_outcome.
    cbn [main.events]. destruct g as [tool |]; [| reflexivity].
    apply (permitted_no_model_load Close).
    apply (calls_only_trace World respond _ _ (perform_calls host Close)). }
  split; [| intros ->; exact C].
  assert (D : req = main.CloseBrowserTool \/ req <> main.CloseBrowserTool)
    by (destruct req; (now left) || (right; discriminate)).
  destruct D as [-> | N].
  - cbn [main.handle]. rewrite C. cbn. destruct g; lia.
  - destruct (handle_calls req N) as (A & p & wrap & op & P & ->).
    unfold main.on_browser, main.get_browser_tool.
    destruct g as [tool |];
      [| destruct (init_outcome w) as (V & _ & _ & L); cbn zeta in V, L;
         rewrite V];
      cbn [main.reply main.instance main.world main.events];
      rewrite ?filter_app, ?length_app;
      rewrite (permitted_no_model_load op _
                 (calls_only_trace World respond _ _ P _ _));
      cbn [List.length filter app]; lia.
Qed.

End ToolLayer.

(** * Examples *)

(** ** Initialization *)



(** Two callers enter one after the other: the second returns at once. *)
Lemma at_most_one_launch_witness :
  let P := enter (enter (start fresh_tool)) in
  (in_flight P <= 1)%nat
  /\ (List.length (handles P) <= 1)%nat
  /\ (existsb launching (tasks P) = true ->
      handles P = [] /\ browser (shared P) = None)
  /\ (in_flight P = 1%nat <-> _initializing (shared P) = true)
  /\ (_initializing (shared P) = true ->
      advance _setup_browser (shared P) = (Done (Returned tt), shared P)
      /\ handles (enter P) = handles P
      /\ in_flight (enter P) = in_flight P).
Proof.
  apply (at_most_one_launch fresh_tool (enter (enter (start fresh_tool))) eq_refl).
  apply reach_step with (P := enter (start fresh_tool)); [| apply step_enter].
  apply reach_step with (P := start fresh_tool); [apply reach_start | apply step_enter].
Defined.

(** The launch is requested once the driver has started, and its handle
    is the one the object then holds. *)
Example launch_after_start :
  let P1 := enter (start fresh_tool) in
  exists k1,
    tasks P1 = [Blocked async_playwright_start k1]
    /\ let P2 := resume P1 [] [] async_playwright_start k1
                   (Returned (PlaywrightHandle 0)) in
       exists k2,
         tasks P2 = [Blocked (chromium_launch (PlaywrightHandle 0) true launch_args) k2]
         /\ let P3 := resume P2 [] []
                         (chromium_launch (PlaywrightHandle 0) true launch_args) k2
                         (Returned (BrowserHandle 1)) in
            handles P3 = [BrowserHandle 1]
            /\ browser (shared P3) = Some (BrowserHandle 1)
            /\ existsb launching (tasks P3) = false.
Proof.
  cbn. eexists. split; [reflexivity |].
  eexists. split; [reflexivity |]. repeat split.
Qed.

(** ** Content extraction *)



(** ** Construction *)

(** C3, the code at the failing input: with [LLM] naming a file that does
    not exist, construction completes without a log line and leaves [llm]
    unassigned; [summarize] then raises [AttributeError], not the
    configuration fault. *)
Lemma init_nonexistent_model_file :
  let host :=
    example_host (llm_env "/path/to/nonexistent/model.gguf") no_files "" [] in
  let o := run (scripted all_well) (__init__ host) blank 0%nat in
  value o = Returned tt
  /\ trace o = []
  /\ llm (self_after o) = None
  /\ value (run (scripted all_well) (summarize "Text" 200) (self_after o) 0%nat)
     = Raised no_attribute_llm.
Proof.
  cbn zeta. repeat split.
Qed.


Example init_without_setting :
  self_after (run (scripted all_well) (__init__ plain_host) blank 0%nat)
  = fresh_tool.
Proof. reflexivity. Qed.

(** ** Web search *)



(** A query that cannot be encoded: the fault of [quote_plus] reaches the
    caller, after initialization and before any page is loaded. *)
Example web_search_unencodable_query :
  let o := run (scripted all_well) (web_search unencodable_host "q" 10)
             fresh_tool 0%nat in
  value o = Raised unencodable
  /\ self_after o = open_tool
  /\ List.length (filter is_call (trace o)) = 5%nat.
Proof. repeat split. Qed.

(** [web_search] with [max_results = 1] on two valid entries: exactly the
    first. *)
Lemma web_search_maps_results_witness :
  value (run (scripted (serving two_entries_text))
           (web_search (search_host two_entries_text two_entries) "q" 1)
           fresh_tool 0%nat)
  = Returned [{| title := JStr "T1"; url := JStr "http://u1";
                 snippet := JStr "c1" |}]
  /\ (0 <= 1 -> list_prefix two_entries 1 = firstn (Z.to_nat 1) two_entries).
Proof.
  apply (web_search_maps_results nat (scripted (serving two_entries_text))
           (search_host two_entries_text two_entries) fresh_tool 0%nat "q" 1
           "http://192.168.77.8:8888/search?q=q&format=json"
           (PageHandle 3) {| status := 200 |} (results_markup two_entries_text)
           (results_text two_entries_text)
           [("results"%string, JList two_entries)] two_entries);
    reflexivity.
Defined.

(** The test of the repository: one entry, returned as title, url and
    snippet. *)
Example web_search_one_entry :
  let items := entry_text (quoted "Test Title") (quoted "http://test.com")
                 (quoted "Test content") in
  let parsed := [entry (JStr "Test Title") (JStr "http://test.com")
                   (JStr "Test content")] in
  value (run (scripted (serving items)) (web_search (search_host items parsed)
                                           "test query" 10) fresh_tool 0%nat)
  = Returned [{| title := JStr "Test Title"; url := JStr "http://test.com";
                 snippet := JStr "Test content" |}].
Proof. reflexivity. Qed.

(** C6, the claim as stated fails: a valid entry followed by [null] (an
    entry with no title), and an entry whose title is a number, are 200
    responses with a [results] array; the claim keeps one result of each,
    the code returns the empty list. *)
Lemma web_search_drops_all_on_odd_entry :
  value (run (scripted (serving entry_then_null_text))
           (web_search (search_host entry_then_null_text entry_then_null) "q" 10)
           fresh_tool 0%nat)
  = Returned []
  /\ map result_of (filter kept (firstn 10 entry_then_null))
     = [{| title := JStr "T"; url := JStr "http://u"; snippet := JStr "c" |}]
  /\ value (run (scripted (serving numeric_title_text))
              (web_search (search_host numeric_title_text numeric_title) "q" 10)
              fresh_tool 0%nat)
     = Returned []
  /\ map result_of (filter kept (firstn 10 numeric_title))
     = [{| title := JInt 5; url := JStr "http://u"; snippet := JStr "c" |}].
Proof. repeat split. Qed.

(** A negative [max_results] counts from the end of the array. *)
Example web_search_negative_max_results :
  value (run (scripted (serving two_entries_text))
           (web_search (search_host two_entries_text two_entries) "q" (-1))
           fresh_tool 0%nat)
  = Returned [{| title := JStr "T1"; url := JStr "http://u1";
                 snippet := JStr "c1" |}].
Proof. reflexivity. Qed.

(** ** Navigation *)

(** A page answering 404 is navigated to; a missing response is a
    fault. *)
Example navigate_error_page :
  let o := run (scripted (answering (Returned (Some {| status := 404 |}))
                            (Returned blank_markup)))
             (navigate "http://test.com" None 10) fresh_tool 0%nat in
  value o = Returned tt /\ existsb is_warning (trace o) = true.
Proof. split; reflexivity. Qed.

Example navigate_no_response :
  value (run (scripted (answering (Returned None) (Returned blank_markup)))
           (navigate "http://test.com" None 10) fresh_tool 0%nat)
  = Raised (mk_exn Exception
              "Failed to navigate to http://test.com: Failed to navigate to http://test.com - no response received").
Proof. reflexivity. Qed.

(** ** The session invariant *)

(** A sequence of calls made one after the other; and a caller that
    navigates while another is in the start of the driver. *)
Lemma handles_ordered_at_boundaries_witness :
  forallb handles_ordered
    (boundaries (scripted all_well) plain_host
       [Navigate "http://test.com" None 10; ExtractContent None None; Close;
        WebSearch "q" 1; Summarize "Text" 200; EnsureReady]
       fresh_tool 0%nat)
  = true
  /\ handles_ordered
       (shared (spawn (perform plain_host (Navigate "http://test.com" None 10))
                  (spawn (perform plain_host EnsureReady) (start fresh_tool))))
     = true.
Proof.
  refine ((fun H => conj (proj1 H) (proj2 H eq_refl _ _))
            (handles_ordered_at_boundaries nat (scripted all_well) plain_host
               [Navigate "http://test.com" None 10; ExtractContent None None;
                Close; WebSearch "q" 1; Summarize "Text" 200; EnsureReady]
               fresh_tool 0%nat eq_refl)).
  apply session_next
    with (P := spawn (perform plain_host EnsureReady) (start fresh_tool)).
  - apply session_next with (P := start fresh_tool).
    + apply session_start.
    + now apply session_call.
  - now apply session_call.
Defined.

(** C10, the claim as stated fails: a first caller initializes and, while
    it waits for the page, a second caller closes.  [close] finds no page,
    releases the process and the driver and returns; the page arrives in
    between.  Where both calls have returned, the object holds a page
    with neither process nor driver. *)
Lemma overlapping_close_breaks_order :
  let P := fst (play plain_host (scripted all_well)
                  (close_during_setup ++ [Resume 0%nat]) (start fresh_tool)
                  0%nat) in
  session plain_host true fresh_tool P
  /\ map outcome_of (tasks P) = [Some (Returned tt); Some (Returned tt)]
  /\ handles_ordered (shared P) = false
  /\ page (shared P) = Some (PageHandle 3)
  /\ browser (shared P) = None
  /\ playwright (shared P) = None.
Proof.
  cbn zeta. split; [apply play_session; apply session_start | repeat split].
Qed.

(** The test of the repository: the fault names the selector. *)
Example navigate_element_not_found :
  value (run (scripted selector_missing)
           (navigate "http://test.com" (Some "#test"%string) 10) fresh_tool 0%nat)
  = Raised (mk_exn Exception
              "Failed to navigate to http://test.com: Element '#test' not found on page after 10s: Timeout").
Proof. reflexivity. Qed.

(** ** Teardown *)

(** Initialization opens the session; [close] empties it, also when
    closing the page raises, in which case the process and the driver are
    not asked to close. *)
Example setup_browser_opens :
  self_after (run (scripted all_well) _setup_browser fresh_tool 0%nat) = open_tool.
Proof. reflexivity. Qed.

Example close_open_session :
  let o := run (scripted all_well) close open_tool 0%nat in
  value o = Returned tt /\ self_after o = fresh_tool
  /\ List.length (filter is_call (trace o)) = 3%nat.
Proof. repeat split. Qed.

Example close_when_page_close_raises :
  let o := run (scripted close_failing) close open_tool 0%nat in
  value o = Returned tt /\ self_after o = fresh_tool
  /\ List.length (filter is_call (trace o)) = 1%nat.
Proof. repeat split. Qed.

Example close_never_opened :
  let o := run (scripted all_well) close fresh_tool 0%nat in
  value o = Returned tt /\ self_after o = fresh_tool
  /\ filter is_call (trace o) = [].
Proof. repeat split. Qed.

(** C4, the claim as stated fails: from a state in which an
    initialization is suspended in the creation of the page, [close]
    finds no page, is suspended in the release of the process, and
    returns normally after the page has arrived: the page is present, the
    process and the driver are absent. *)
Lemma close_during_setup_leaves_page :
  let P := fst (play plain_host (scripted all_well) close_during_setup
                  (start fresh_tool) 0%nat) in
  session plain_host true fresh_tool P
  /\ map outcome_of (tasks P) = [None; Some (Returned tt)]
  /\ page (shared P) = Some (PageHandle 3)
  /\ browser (shared P) = None
  /\ playwright (shared P) = None.
Proof.
  cbn zeta. split; [apply play_session; apply session_start | repeat split].
Qed.

(** ** Further examples *)

(** The launch of the process fails: the fault is the wrapped one, it is
    logged, and the flag is clear again. *)
Lemma setup_browser_failure_witness :
  (exists cause,
      mk_exn Exception "Failed to initialize browser: Executable doesn't exist"
      = mk_exn Exception ("Failed to initialize browser: " ++ str cause))
  /\ _initializing fresh_tool = false
  /\ _initializing
       (self_after (run (scripted launch_failing) _setup_browser fresh_tool 0%nat))
     = false
  /\ existsb is_error
       (trace (run (scripted launch_failing) _setup_browser fresh_tool 0%nat))
     = true.
Proof.
  exact (setup_browser_failure nat (scripted launch_failing) fresh_tool 0%nat
           _ eq_refl).
Defined.

(** A setting written between double quotes: the model is loaded from the
    path inside them. *)
Lemma init_loads_model_once_witness :
  let o := run (scripted all_well)
             (__init__ (model_host (quoted "/models/model.gguf"))) blank 0%nat in
  filter is_call (trace o)
  = [Called (Llama_new "/models/model.gguf" 2048 4) (Returned (LlamaHandle 0))]
  /\ world_after o = 1%nat
  /\ llm (self_after o) = Some (Some (LlamaHandle 0))
  /\ existsb is_error (trace o) = false.
Proof.
  exact (init_loads_model_once nat (scripted all_well)
           (model_host (quoted "/models/model.gguf")) 0%nat
           (quoted "/models/model.gguf") eq_refl eq_refl).
Defined.

(** The same setting with and without its quotes. *)
Lemma init_ignores_surrounding_quotes_witness :
  run (scripted all_well) (__init__ (model_host (quoted "/models/model.gguf")))
    blank 0%nat
  = run (scripted all_well) (__init__ (model_host "/models/model.gguf"))
      blank 0%nat.
Proof.
  apply (init_ignores_surrounding_quotes nat (scripted all_well)
           (model_host "/models/model.gguf")
           (model_host (quoted "/models/model.gguf")) 0%nat
           "/models/model.gguf" double_quote double_quote);
    first [discriminate | reflexivity].
Defined.

(** The test of the repository: the engine answers one choice. *)
Lemma summarize_with_engine_witness :
  let o := run (scripted all_well) (summarize "Long text to summarize" 200)
             engine_tool 0%nat in
  value o = Returned "Summary text"%string
  /\ existsb is_warning (trace o) = false
  /\ existsb is_error (trace o) = false.
Proof.
  exact ((fun H => conj (proj1 (proj2 (proj2 (proj2 H))))
                     (proj2 (proj2 (proj2 (proj2 H)))))
           (summarize_with_engine nat (scripted all_well) engine_tool 0%nat
              "Long text to summarize" 200 (LlamaHandle 0) eq_refl)).
Defined.

(** Two entries asked for, two results, each with its title and url. *)
Lemma web_search_results_kept_witness :
  Forall (fun r => truthy (title r) = true /\ truthy (url r) = true)
    [{| title := JStr "T1"; url := JStr "http://u1"; snippet := JStr "c1" |};
     {| title := JStr "T2"; url := JStr "http://u2"; snippet := JStr "c2" |}]
  /\ (0 <= 2 -> Z.of_nat 2 <= 2).
Proof.
  exact (web_search_results_kept nat (scripted (serving two_entries_text))
           (search_host two_entries_text two_entries) fresh_tool 0%nat "q" 2
           _ eq_refl).
Defined.

(** The slice confines the damage: with one result asked for, the [null]
    that follows the first entry is not looked at. *)
Lemma web_search_all_or_nothing_witness :
  value (run (scripted (serving entry_then_null_text))
           (web_search (search_host entry_then_null_text entry_then_null) "q" 1)
           fresh_tool 0%nat)
  = Returned [{| title := JStr "T"; url := JStr "http://u"; snippet := JStr "c" |}].
Proof.
  apply (web_search_all_or_nothing nat (scripted (serving entry_then_null_text))
           (search_host entry_then_null_text entry_then_null) fresh_tool 0%nat
           "q" 1 "http://192.168.77.8:8888/search?q=q&format=json"
           (PageHandle 3) {| status := 200 |}
           (results_markup entry_then_null_text)
           (results_text entry_then_null_text)
           [("results"%string, JList entry_then_null)] entry_then_null);
    reflexivity.
Defined.

(** The awaited element does not show: the fault names the URL, and the
    object is as initialization left it. *)
Lemma navigate_fault_message_witness :
  let o := run (scripted selector_missing)
             (navigate "http://example.com" (Some "#missing"%string) 10)
             fresh_tool 0%nat in
  existsb is_error (trace o) = true
  /\ self_after o
     = self_after (run (scripted selector_missing) _setup_browser fresh_tool 0%nat).
Proof.
  exact ((fun H => conj (proj1 H) (proj1 (proj2 H)))
           (navigate_fault_message nat (scripted selector_missing) fresh_tool
              0%nat "http://example.com" (Some "#missing"%string) 10 _
              eq_refl eq_refl)).
Defined.


(** On a server that has served nothing yet. *)
Lemma get_page_content_is_extract_content_witness :
  main.reply (main.get_page_content plain_host (scripted all_well)
                "http://example.com" None 0%nat)
  = Returned (main.PageContent "http://example.com" "")
  /\ main.instance (main.get_page_content plain_host (scripted all_well)
                      "http://example.com" None 0%nat)
     = main.instance (main.extract_content plain_host (scripted all_well)
                        (Some "http://example.com"%string) None None 0%nat).
Proof.
  refine ((fun H => conj (proj1 H) (proj1 (proj2 H)))
            (get_page_content_is_extract_content plain_host nat
               (scripted all_well) "http://example.com" None 0%nat _)).
  discriminate.
Defined.

(** A first caller is suspended in the start of the driver. *)
Lemma operations_during_initialization_witness :
  let busy := shared (enter (start fresh_tool)) in
  advance (navigate "http://example.com" None 10) busy
  = (Done (Raised (mk_exn Exception
                     "Failed to navigate to http://example.com: 'NoneType' object has no attribute 'goto'")),
     busy)
  /\ advance (web_search plain_host "q" 10) busy = (Done (Returned []), busy).
Proof.
  exact ((fun H => conj (proj1 H) (proj1 (proj2 H)))
           (operations_during_initialization plain_host
              (shared (enter (start fresh_tool))) "http://example.com" None 10
              "q" 10 eq_refl eq_refl)).
Defined.
